(** * PayOS UCP settlement example client (docs/ucp/examples/python/settlement.py)

    A shallow embedding of the Python client [PayOSUCPClient], of the two
    recipient constructors, and of the polling loop [wait_for_completion],
    together with the properties of the client-visible behaviour.

    Python dictionaries with string keys are finite maps ([gmap string _]);
    the remote service, the wall clock and [time.sleep] are an explicit
    environment; exceptions are an error type threaded through a small
    state-and-error monad. *)

From Stdlib Require Import ZArith QArith Lqa Lia.
From stdpp Require Import base gmap strings list fin_maps pretty.

Local Open Scope string_scope.

(** ** JSON values, as Python's [json] module and [requests] exchange them *)

#[local] Set Warnings "-register-all".

Inductive json : Type :=
| JNull
| JBool (b : bool)
| JNum (q : Q)
| JStr (s : string)
| JArr (l : list json)
| JObj (o : gmap string json).

(** A Python dictionary with string keys: [Dict[str, Any]]. *)
Abbreviation dict := (gmap string json).

(** [v == s] for a string literal [s]: only a string equal to [s] compares
    equal; every other JSON value is different from every string. *)
Definition py_eq_str (v : json) (s : string) : bool :=
  match v with
  | JStr t => bool_decide (t = s)
  | _ => false
  end.

(** Truth value of a string in [if x:]: the empty string is false. *)
Definition truthy_str (s : string) : bool := negb (bool_decide (s = "")).

(** Truth value of a dictionary in [if x:]: the empty dictionary is false. *)
Definition truthy_dict (d : dict) : bool := negb (bool_decide (d = ∅)).

(** ** Recipient constructors *)

(** [tax_id : Optional[str] = None]; [None] is false in [if tax_id:]. *)
Definition create_pix_recipient
    (pix_key pix_key_type name : string) (tax_id : option string) : dict :=
  let recipient : dict :=
    <["name" := JStr name]>
      (<["pix_key_type" := JStr pix_key_type]>
         (<["pix_key" := JStr pix_key]> {["type" := JStr "pix"]})) in
  match tax_id with
  | Some t =>
      if truthy_str t then <["tax_id" := JStr t]> recipient else recipient
  | None => recipient
  end.

Definition create_spei_recipient
    (clabe name : string) (rfc : option string) : dict :=
  let recipient : dict :=
    <["name" := JStr name]>
      (<["clabe" := JStr clabe]> {["type" := JStr "spei"]}) in
  match rfc with
  | Some r =>
      if truthy_str r then <["rfc" := JStr r]> recipient else recipient
  | None => recipient
  end.

(** ** HTTP exchanges, as seen through the [requests] library *)

Inductive http_method := GET | POST.

Record request := {
  req_method : http_method;
  req_url : string;
  req_headers : gmap string string;
  req_json : option json            (* the [json=] keyword argument *)
}.

(** A response: its status code and its body as [response.json()] decodes it
    ([None] when the body is not JSON and decoding raises). *)
Record response := {
  status_code : Z;
  body : option json
}.

(** ** Exceptions *)

Inductive exn :=
| ConnectionError                   (* no response: transport failure *)
| HTTPError (r : response)          (* raised by [raise_for_status] *)
| JSONDecodeError                   (* raised by [response.json()] *)
| KeyError (k : string)             (* [d[k]] on a missing key *)
| TypeError                         (* [v[k]] on a value that is no dict *)
| AttributeError                    (* [v.get(k)] on a value that is no dict *)
| Exception_ (msg : string).        (* [raise Exception(msg)] *)

(** How a call ends: a returned value, a raised exception, or the step
    budget of the model exhausted (the Python loop would still be running). *)
Inductive outcome (A : Type) :=
| Return (a : A)
| Raise (e : exn)
| OutOfFuel.
Arguments Return {A} a.
Arguments Raise {A} e.
Arguments OutOfFuel {A}.

(** ** The client object and the observable state *)

Record client := {
  api_key : string;
  base_url : string;
  headers : gmap string string
}.

Inductive event :=
| EvHttp (r : request)              (* a request handed to [requests] *)
| EvSleep (secs : Z).               (* [time.sleep(secs)] *)

Record state := {
  self : client;                    (* the attributes of [self] *)
  clock_reads : nat;                (* calls of [time.time()] so far *)
  exchanges : nat;                  (* HTTP requests issued so far *)
  trace : list event                (* requests and sleeps, oldest first *)
}.

(** The environment of a run: what the [k]-th call of [time.time()] reads (in
    seconds; the float read, held as the rational it denotes), what the
    [k]-th HTTP request is answered
    ([None]: the transport fails and [requests] raises), and how Python's
    [str()] prints the JSON values that are neither text, [None] nor
    booleans. Nothing relates the readings to one another or to the sleeps:
    what a statement needs of the clock is a hypothesis of that statement. *)
Record env := {
  now_at : nat -> Q;
  reply_at : nat -> option response;
  repr_of : json -> string
}.

(** ** The state-and-exception monad *)

Definition M (A : Type) : Type := state -> outcome A * state.

Definition ret {A} (a : A) : M A := fun s => (Return a, s).
Definition raise {A} (e : exn) : M A := fun s => (Raise e, s).
Definition bind {A B} (m : M A) (k : A -> M B) : M B :=
  fun s =>
    match m s with
    | (Return a, s') => k a s'
    | (Raise e, s') => (Raise e, s')
    | (OutOfFuel, s') => (OutOfFuel, s')
    end.

Declare Scope py_scope.
Delimit Scope py_scope with py.
Notation "x <- m ;; k" := (bind m (fun x => k))
  (at level 100, m at next level, right associativity) : py_scope.
Notation "m ;;; k" := (bind m (fun _ => k))
  (at level 100, right associativity) : py_scope.

Local Open Scope py_scope.

(** ** Primitive operations of the Python runtime and of [requests] *)

Definition get_self : M client := fun s => (Return (self s), s).

Definition log (e : event) (s : state) : state :=
  {| self := self s; clock_reads := clock_reads s;
     exchanges := exchanges s; trace := trace s ++ [e] |}.

Definition tick (s : state) : state :=
  {| self := self s; clock_reads := S (clock_reads s);
     exchanges := exchanges s; trace := trace s |}.

Definition served (s : state) : state :=
  {| self := self s; clock_reads := clock_reads s;
     exchanges := S (exchanges s); trace := trace s |}.

(** [x < y] on the rationals, as a boolean. *)
Definition Qltb (x y : Q) : bool := negb (Qle_bool y x).

(** *** Python floats

    A Python [float] is an IEEE 754 binary64 number. The readings of the clock
    are finite floats, held as the rationals they denote; the result of an
    operation is the exact result rounded to the nearest binary64 number, ties
    to the even significand, and may be infinite. *)
Inductive float64 :=
| Finite (q : Q)
| PlusInf
| MinusInf.

(** [num / den] rounded to the nearest integer, ties to even ([0 < den]). *)
Definition round_half_even (num den : Z) : Z :=
  let m := (num / den)%Z in
  let r := (num mod den)%Z in
  match (2 * r ?= den)%Z with
  | Lt => m
  | Gt => (m + 1)%Z
  | Eq => if Z.even m then m else (m + 1)%Z
  end.

(** The [e] with [2^e <= a / d < 2^(e+1)] ([0 < a], [0 < d]). *)
Definition binade (a d : Z) : Z :=
  let e := (Z.log2 a - Z.log2 d)%Z in
  if (d * 2 ^ Z.max 0 e <=? a * 2 ^ Z.max 0 (- e))%Z then e else (e - 1)%Z.

(** [2^p] for an integer [p] of either sign. *)
Definition pow2 (p : Z) : Q :=
  if (0 <=? p)%Z then inject_Z (2 ^ p)
  else Qmake 1 (Z.to_pos (2 ^ (- p))).

(** [a / d] rounded to binary64 ([0 < a], [0 < d]): 53 significant bits, the
    unit in the last place never below [2^-1074] (subnormal numbers), and
    infinity once the rounded value reaches [2^1024]. *)
Definition round_pos (a d : Z) : float64 :=
  let p := Z.max (binade a d - 52) (-1074) in
  let m := round_half_even (a * 2 ^ Z.max 0 (- p)) (d * 2 ^ Z.max 0 p) in
  if (2 ^ 1024 <=? m * 2 ^ Z.max 0 p)%Z then PlusInf
  else Finite (inject_Z m * pow2 p)%Q.

Definition float_neg (x : float64) : float64 :=
  match x with
  | Finite q => Finite (- q)%Q
  | PlusInf => MinusInf
  | MinusInf => PlusInf
  end.

(** A rational rounded to binary64. *)
Definition round64 (q : Q) : float64 :=
  match Qnum q with
  | Z0 => Finite 0%Q
  | Zpos a => round_pos (Zpos a) (Zpos (Qden q))
  | Zneg a => float_neg (round_pos (Zpos a) (Zpos (Qden q)))
  end.

(** [x - y] on floats. *)
Definition float_sub (x y : Q) : float64 := round64 (x - y).

(** [x < n] for a float [x] and an [int] [n]: Python compares the two
    numbers exactly, without converting the integer. *)
Definition float_lt_int (x : float64) (n : Z) : bool :=
  match x with
  | Finite q => Qltb q (inject_Z n)
  | PlusInf => false
  | MinusInf => true
  end.

(** The rational is a finite binary64 number: rounding leaves it alone. *)
Definition is_binary64 (q : Q) : bool :=
  match round64 q with
  | Finite v => Qeq_bool v q
  | _ => false
  end.

(** [response.raise_for_status()] of [requests]: [HTTPError] exactly for the
    client-error and server-error ranges [400 <= status_code < 600]. *)
Definition is_http_error (code : Z) : bool :=
  ((400 <=? code) && (code <? 600))%Z.

Definition raise_for_status (r : response) : M unit :=
  if is_http_error (status_code r) then raise (HTTPError r) else ret tt.

(** [response.json()]. *)
Definition response_json (r : response) : M json :=
  match body r with
  | Some j => ret j
  | None => raise JSONDecodeError
  end.

(** [v[k]] for a string key [k]. *)
Definition subscript (v : json) (k : string) : M json :=
  match v with
  | JObj o =>
      match o !! k with
      | Some x => ret x
      | None => raise (KeyError k)
      end
  | _ => raise TypeError
  end.

(** [v.get(k)]: [None] where the key is missing. *)
Definition dict_get (v : json) (k : string) : M (option json) :=
  match v with
  | JObj o => ret (o !! k)
  | _ => raise AttributeError
  end.

(** [time.sleep(secs)]. *)
Definition time_sleep (secs : Z) : M unit :=
  fun s => (Return tt, log (EvSleep secs) s).

Section Runtime.

Variable E : env.

(** [time.time()]. *)
Definition time_time : M Q :=
  fun s => (Return (now_at E (clock_reads s)), tick s).

(** One HTTP exchange: the request is recorded, then answered by the
    environment or failed by the transport. *)
Definition send (r : request) : M response :=
  fun s =>
    let s' := served (log (EvHttp r) s) in
    match reply_at E (exchanges s) with
    | Some resp => (Return resp, s')
    | None => (Raise ConnectionError, s')
    end.

(** [requests.post(url, headers=..., json=...)]. *)
Definition requests_post
    (url : string) (hs : gmap string string) (payload : json) : M response :=
  send {| req_method := POST; req_url := url;
          req_headers := hs; req_json := Some payload |}.

(** [requests.get(url, headers=...)]. *)
Definition requests_get (url : string) (hs : gmap string string) : M response :=
  send {| req_method := GET; req_url := url;
          req_headers := hs; req_json := None |}.

(** [str(v)] inside an f-string, for [v] a parsed JSON value or [None]. *)
Definition py_str (v : option json) : string :=
  match v with
  | None | Some JNull => "None"
  | Some (JStr s) => s
  | Some (JBool true) => "True"
  | Some (JBool false) => "False"
  | Some w => repr_of E w
  end.

(** ** [class PayOSUCPClient] *)

(** [__init__(self, api_key, base_url = "https://api.payos.com")]. *)
Definition __init__ (key : string) (url : option string) : client :=
  {| api_key := key;
     base_url := default "https://api.payos.com" url;
     headers :=
       <["UCP-Agent" := "PythonExample/2026-01-11"]>
         (<["Content-Type" := "application/json"]>
            {["Authorization" := "Bearer " ++ key]}) |}.

Definition quote_payload (corridor : string) (amount : Q) (currency : string)
    : dict :=
  <["currency" := JStr currency]>
    (<["amount" := JNum amount]> {["corridor" := JStr corridor]}).

Definition get_quote (corridor : string) (amount : Q) (currency : string)
    : M json :=
  this <- get_self ;;
  response <- requests_post (base_url this ++ "/v1/ucp/quote") (headers this)
                (JObj (quote_payload corridor amount currency)) ;;
  raise_for_status response ;;;
  response_json response.

Definition token_payload (corridor : string) (amount : Q) (currency : string)
    (recipient : dict) (metadata : option dict) : dict :=
  let payload : dict :=
    <["recipient" := JObj recipient]>
      (<["currency" := JStr currency]>
         (<["amount" := JNum amount]> {["corridor" := JStr corridor]})) in
  match metadata with
  | Some md =>
      if truthy_dict md then <["metadata" := JObj md]> payload else payload
  | None => payload
  end.

Definition acquire_token (corridor : string) (amount : Q) (currency : string)
    (recipient : dict) (metadata : option dict) : M json :=
  let payload := token_payload corridor amount currency recipient metadata in
  this <- get_self ;;
  response <- requests_post (base_url this ++ "/v1/ucp/tokens") (headers this)
                (JObj payload) ;;
  raise_for_status response ;;;
  response_json response.

Definition settle_payload (token : string) (idempotency_key : option string)
    : dict :=
  let payload : dict := {["token" := JStr token]} in
  match idempotency_key with
  | Some k =>
      if truthy_str k then <["idempotency_key" := JStr k]> payload
      else payload
  | None => payload
  end.

Definition settle (token : string) (idempotency_key : option string)
    : M json :=
  let payload := settle_payload token idempotency_key in
  this <- get_self ;;
  response <- requests_post (base_url this ++ "/v1/ucp/settle") (headers this)
                (JObj payload) ;;
  raise_for_status response ;;;
  response_json response.

Definition get_settlement_status (settlement_id : string) : M json :=
  this <- get_self ;;
  response <- requests_get
                (base_url this ++ "/v1/ucp/settlements/" ++ settlement_id)
                (headers this) ;;
  raise_for_status response ;;;
  response_json response.

(** The [while] loop of [wait_for_completion]; [fuel] bounds the number of
    times the loop condition is evaluated. *)
Fixpoint poll_loop (fuel : nat) (settlement_id : string)
    (start_time : Q) (max_wait_seconds : Z) : M json :=
  match fuel with
  | O => fun s => (OutOfFuel, s)
  | S fuel' =>
      now <- time_time ;;
      if float_lt_int (float_sub now start_time) max_wait_seconds then
        status <- get_settlement_status settlement_id ;;
        st <- subscript status "status" ;;
        if py_eq_str st "completed" then ret status
        else
          st' <- subscript status "status" ;;
          if py_eq_str st' "failed" then
            reason <- dict_get status "failure_reason" ;;
            raise (Exception_ ("Settlement failed: " ++ py_str reason))
          else
            time_sleep 2 ;;;
            poll_loop fuel' settlement_id start_time max_wait_seconds
      else raise (Exception_ "Settlement timed out")
  end.

(** [wait_for_completion(self, settlement_id, max_wait_seconds = 120)]. *)
Definition wait_for_completion (fuel : nat) (settlement_id : string)
    (max_wait_seconds : option Z) : M json :=
  start_time <- time_time ;;
  poll_loop fuel settlement_id start_time (default 120%Z max_wait_seconds).

End Runtime.

(** ** Vocabulary of the statements *)

(** The clock reading number [k] lies before the deadline of a wait that
    started at [t0] with [max_wait_seconds = mw]: the loop condition
    [time.time() - start_time < max_wait_seconds]. *)
Definition before_deadline (E : env) (t0 : Q) (mw : Z) (k : nat) : Prop :=
  float_lt_int (float_sub (now_at E k) t0) mw = true.

(** The HTTP request number [k] gets a response that [raise_for_status] lets
    through and whose body decodes to [j]. *)
Definition answers (E : env) (k : nat) (j : json) : Prop :=
  exists r, reply_at E k = Some r /\
            is_http_error (status_code r) = false /\ body r = Some j.

(** The ["status"] entry of a settlement record. *)
Definition status_of (j : json) : option json :=
  match j with
  | JObj o => o !! "status"
  | _ => None
  end.

(** The ["failure_reason"] entry of a settlement record, if any. *)
Definition reason_of (j : json) : option json :=
  match j with
  | JObj o => o !! "failure_reason"
  | _ => None
  end.

(** A record whose status is neither ["completed"] nor ["failed"]. *)
Definition nonterminal (j : json) : Prop :=
  exists v, status_of j = Some v /\ v <> JStr "completed" /\ v <> JStr "failed".

(** The request [get_settlement_status] issues. *)
Definition status_request (c : client) (settlement_id : string) : request :=
  {| req_method := GET;
     req_url := base_url c ++ "/v1/ucp/settlements/" ++ settlement_id;
     req_headers := headers c;
     req_json := None |}.

(** The request a [POST] operation issues. *)
Definition post_request (c : client) (path : string) (payload : dict) : request :=
  {| req_method := POST;
     req_url := base_url c ++ path;
     req_headers := headers c;
     req_json := Some (JObj payload) |}.

(** The state after one poll that was answered. *)
Definition polled (settlement_id : string) (s : state) : state :=
  served (log (EvHttp (status_request (self s) settlement_id)) s).

(** The state after [n] rounds of: read the clock, poll, sleep two seconds. *)
Definition after_rounds (n : nat) (settlement_id : string) (s : state) : state :=
  {| self := self s;
     clock_reads := clock_reads s + n;
     exchanges := exchanges s + n;
     trace := trace s ++
              mjoin (replicate n [EvHttp (status_request (self s) settlement_id);
                                  EvSleep 2]) |}.

(** The body shared by the four operations: one exchange, the status check,
    the decoding. *)
Definition call (E : env) (r : request) : M json :=
  response <- send E r ;;
  raise_for_status response ;;;
  response_json response.

(** ** Scripted environments, for running the model on concrete inputs *)

Definition scripted (times : list Q) (replies : list (option response)) : env :=
  {| now_at := fun k => nth k times 0%Q;
     reply_at := fun k => nth k replies None;
     repr_of := fun _ => "<json>" |}.

Definition ok_reply (j : json) : option response :=
  Some {| status_code := 200; body := Some j |}.

Definition record_with_status (st : string) : json :=
  JObj (<["status" := JStr st]> {["id" := JStr "stl_1"]}).

Definition failed_record (why : string) : json :=
  JObj (<["failure_reason" := JStr why]>
          (<["status" := JStr "failed"]> {["id" := JStr "stl_1"]})).

Definition demo_client : client := __init__ "pk_test" None.

Definition init_state (c : client) : state :=
  {| self := c; clock_reads := 0; exchanges := 0; trace := [] |}.

(** ** The script: module constants and [main] *)

(** [os.getenv(name, fallback)] over the process environment. *)
Definition getenv (environ : gmap string string) (name fallback : string)
    : string :=
  default fallback (environ !! name).

Definition PAYOS_API_KEY (environ : gmap string string) : string :=
  getenv environ "PAYOS_API_KEY" "pk_test_...".

Definition PAYOS_BASE_URL (environ : gmap string string) : string :=
  getenv environ "PAYOS_BASE_URL" "https://api.payos.com".

(** [int(x)] of a float: truncation towards zero. *)
Definition py_int (x : Q) : Z := Z.quot (Qnum x) (Zpos (Qden x)).

(** The line feed of the ["...\n"] literals. *)
Definition LF : string := String (Ascii.ascii_of_nat 10) "".

(** What [main] runs in: the state of the client's world and the lines
    handed to [print], oldest first. *)
Record world := {
  st : state;
  stdout : list string
}.

Definition P (A : Type) : Type := world -> outcome A * world.

Definition retP {A} (a : A) : P A := fun w => (Return a, w).
Definition bindP {A B} (m : P A) (k : A -> P B) : P B :=
  fun w =>
    match m w with
    | (Return a, w') => k a w'
    | (Raise e, w') => (Raise e, w')
    | (OutOfFuel, w') => (OutOfFuel, w')
    end.

(** A computation of the client, run inside the script. *)
Definition lift {A} (m : M A) : P A :=
  fun w =>
    let (o, s') := m (st w) in
    (o, {| st := s'; stdout := stdout w |}).

(** [print(line)]. *)
Definition print (line : string) : P unit :=
  fun w => (Return tt, {| st := st w; stdout := stdout w ++ [line] |}).

Declare Scope script_scope.
Delimit Scope script_scope with script.
Notation "x <-- m ;; k" := (bindP m (fun x => k))
  (at level 100, m at next level, right associativity) : script_scope.
Notation "m ;;;; k" := (bindP m (fun _ => k))
  (at level 100, right associativity) : script_scope.

Section Script.

Variable E : env.

(** The exception [d[:20]] raises on a dictionary [d]; which one depends on
    the Python version ([TypeError] up to 3.11, [KeyError] since). *)
Variable dict_slice_error : exn.

(** A byte that continues a UTF-8 character: [10xxxxxx]. *)
Definition utf8_continuation (c : Ascii.ascii) : bool :=
  match c with
  | Ascii.Ascii _ _ _ _ _ _ b6 b7 => b7 && negb b6
  end.

(** The first [n] characters of a text held as its UTF-8 bytes: a character
    is a leading byte and the continuation bytes that follow it. *)
Fixpoint utf8_take (n : nat) (s : string) : string :=
  match s with
  | EmptyString => EmptyString
  | String c rest =>
      if utf8_continuation c then String c (utf8_take n rest)
      else match n with
           | O => EmptyString
           | S n' => String c (utf8_take n' rest)
           end
  end.

(** [v[:20]]: the first twenty characters of a text, the first twenty items
    of a list. *)
Definition slice20 (v : json) : M json :=
  match v with
  | JStr s => ret (JStr (utf8_take 20 s))
  | JArr l => ret (JArr (take 20 l))
  | JObj _ => raise dict_slice_error
  | _ => raise TypeError
  end.

(** [settle] as it behaves on a token of any type: the annotation [str] is
    not enforced, the value goes into the payload as it is. *)
Definition settle_any (token : json) (idempotency_key : option string)
    : M json :=
  let payload : dict := {["token" := token]} in
  let payload :=
    match idempotency_key with
    | Some k =>
        if truthy_str k then <["idempotency_key" := JStr k]> payload
        else payload
    | None => payload
    end in
  this <- get_self ;;
  response <- requests_post E (base_url this ++ "/v1/ucp/settle")
                (headers this) (JObj payload) ;;
  raise_for_status response ;;;
  response_json response.

(** [f"order_12345_{int(t)}"]. *)
Definition order_key (t : Q) : string := "order_12345_" ++ pretty (py_int t).

(** The metadata [main] attaches to the token request. *)
Definition order_metadata : dict :=
  <["customer_email" := JStr "customer@example.com"]>
    {["order_id" := JStr "order_12345"]}.

Local Open Scope script_scope.

(** Step 1 of [main]: get a quote. *)
Definition main_quote : P json :=
  print "1. Getting FX quote..." ;;;;
  quote <-- lift (get_quote E "pix" 100 "USD") ;;
  from_amount <-- lift (subscript quote "from_amount") ;;
  to_amount <-- lift (subscript quote "to_amount") ;;
  print ("   Quote: $" ++ py_str E (Some from_amount) ++ " USD = R$" ++
         py_str E (Some to_amount) ++ " BRL") ;;;;
  fx_rate <-- lift (subscript quote "fx_rate") ;;
  fees <-- lift (subscript quote "fees") ;;
  print ("   Rate: " ++ py_str E (Some fx_rate) ++ ", Fees: $" ++
         py_str E (Some fees)) ;;;;
  expires_at <-- lift (subscript quote "expires_at") ;;
  print ("   Expires: " ++ py_str E (Some expires_at) ++ LF) ;;;;
  retP quote.

(** Step 2 of [main]: acquire a settlement token. *)
Definition main_token : P json :=
  print "2. Acquiring settlement token..." ;;;;
  let recipient :=
    create_pix_recipient "maria@email.com" "email" "Maria Silva" None in
  token_response <--
    lift (acquire_token E "pix" 100 "USD" recipient (Some order_metadata)) ;;
  token <-- lift (subscript token_response "token") ;;
  shown <-- lift (slice20 token) ;;
  print ("   Token: " ++ py_str E (Some shown) ++ "...") ;;;;
  settlement_id <-- lift (subscript token_response "settlement_id") ;;
  print ("   Settlement ID: " ++ py_str E (Some settlement_id)) ;;;;
  locked <-- lift (subscript token_response "quote") ;;
  fx_rate <-- lift (subscript locked "fx_rate") ;;
  print ("   Locked rate: " ++ py_str E (Some fx_rate)) ;;;;
  expires_at <-- lift (subscript token_response "expires_at") ;;
  print ("   Expires: " ++ py_str E (Some expires_at) ++ LF) ;;;;
  retP token_response.

(** Step 3 of [main]: execute the settlement. *)
Definition main_settle (token_response : json) : P json :=
  print "3. Executing settlement..." ;;;;
  token <-- lift (subscript token_response "token") ;;
  now <-- lift (time_time E) ;;
  settlement <-- lift (settle_any token (Some (order_key now))) ;;
  status <-- lift (subscript settlement "status") ;;
  print ("   Status: " ++ py_str E (Some status)) ;;;;
  estimated <-- lift (dict_get settlement "estimated_completion") ;;
  print ("   Estimated completion: " ++ py_str E estimated ++ LF) ;;;;
  retP settlement.

(** Step 4 of [main]: wait for completion, then the closing lines. The
    settlement id reaches the URL through an f-string, hence [str()]. *)
Definition main_wait (fuel : nat) (token_response settlement : json)
    : P unit :=
  print "4. Waiting for settlement to complete..." ;;;;
  id <-- lift (subscript settlement "id") ;;
  completed <-- lift (wait_for_completion E fuel (py_str E (Some id)) None) ;;
  status <-- lift (subscript completed "status") ;;
  print ("   Final status: " ++ py_str E (Some status)) ;;;;
  transfer_id <-- lift (dict_get completed "transfer_id") ;;
  print ("   Transfer ID: " ++ py_str E transfer_id) ;;;;
  completed_at <-- lift (dict_get completed "completed_at") ;;
  print ("   Completed at: " ++ py_str E completed_at ++ LF) ;;;;
  print "âœ… Settlement complete!" ;;;;
  locked <-- lift (subscript token_response "quote") ;;
  to_amount <-- lift (subscript locked "to_amount") ;;
  print ("   Amount sent: R$" ++ py_str E (Some to_amount) ++ " BRL") ;;;;
  print "   Recipient: Maria Silva (maria@email.com)".

(** The body of [main] after the client is built. *)
Definition main_steps (fuel : nat) : P unit :=
  print ("PayOS UCP Settlement Example (Python)" ++ LF) ;;;;
  quote <-- main_quote ;;
  token_response <-- main_token ;;
  settlement <-- main_settle token_response ;;
  main_wait fuel token_response settlement.

(** [main()], in a process with the environment variables [environ]: the
    client is built from the module constants, nothing has happened yet. *)
Definition main (fuel : nat) (environ : gmap string string)
    : outcome unit * world :=
  main_steps fuel
    {| st := init_state
               (__init__ (PAYOS_API_KEY environ) (Some (PAYOS_BASE_URL environ)));
       stdout := [] |}.

End Script.



(** The requests of the first three steps of [main]. *)
Definition quote_request (c : client) : request :=
  post_request c "/v1/ucp/quote" (quote_payload "pix" 100 "USD").

Definition token_request (c : client) : request :=
  post_request c "/v1/ucp/tokens"
    (token_payload "pix" 100 "USD"
       (create_pix_recipient "maria@email.com" "email" "Maria Silva" None)
       (Some order_metadata)).


(** The client [main] builds. *)
Definition main_client (environ : gmap string string) : client :=
  __init__ (PAYOS_API_KEY environ) (Some (PAYOS_BASE_URL environ)).

(** The closing banner of [main]. *)
Definition complete_banner : string := "âœ… Settlement complete!".

(** The state after a request was handed over and answered or failed. *)
Definition sent (q : request) (s : state) : state :=
  served (log (EvHttp q) s).

(** The world after [lines] were printed. *)
Definition printed (lines : list string) (s : state) (w : world) : world :=
  {| st := s; stdout := stdout w ++ lines |}.

(** A part of the script that does not print the closing banner. *)
Definition quiet {A} (m : P A) : Prop :=
  forall w, complete_banner ∉ stdout w ->
            complete_banner ∉ stdout (snd (m w)).

(** A part of the script that, when it returns, has issued [n] requests. *)
Definition adds_exchanges {A} (n : nat) (m : P A) : Prop :=
  forall w a w', m w = (Return a, w') ->
                 exchanges (st w') = exchanges (st w) + n.

(** A computation of the client that, when it returns, has issued [n]
    requests. *)
Definition issues {A} (n : nat) (m : M A) : Prop :=
  forall s a s', m s = (Return a, s') -> exchanges s' = exchanges s + n.

(** An operation leaves the attributes of [self] as it found them. *)
Definition keeps_self {A} (m : M A) : Prop :=
  forall s, self (snd (m s)) = self s.

(** What an operation [op] does with the response [r] to its request: it
    raises [HTTPError] carrying [r] exactly when the status is in the error
    ranges, it returns the decoded body otherwise, and it issues one request. *)
Definition http_contract (op : M json) (s : state) (r : response) : Prop :=
  (fst (op s) = Raise (HTTPError r) <-> (400 <= status_code r < 600)%Z) /\
  ((exists r', fst (op s) = Raise (HTTPError r')) ->
   (400 <= status_code r < 600)%Z) /\
  (~ (400 <= status_code r < 600)%Z ->
   forall j, body r = Some j -> fst (op s) = Return j) /\
  exchanges (snd (op s)) = S (exchanges s).

(** Sample environments. *)

(** Readings 0, 1, 3, 5 seconds; two pending polls. *)
Definition env_pending : env :=
  scripted [0; 1; 3; 5]%Q
    [ok_reply (record_with_status "pending");
     ok_reply (record_with_status "pending")].

(** Two pending polls, then a completed one. *)
Definition env_completes : env :=
  scripted [0; 0; 2; 4]%Q
    [ok_reply (record_with_status "pending");
     ok_reply (record_with_status "pending");
     ok_reply (record_with_status "completed")].

(** One pending poll, then a failed one with a reason. *)
Definition env_fails : env :=
  scripted [0; 0; 2]%Q
    [ok_reply (record_with_status "pending");
     ok_reply (failed_record "insufficient_funds")].

(** Statuses outside the enumerated set: a string nobody lists, a number. *)
Definition env_unknown : env :=
  scripted [0; 1; 3; 5]%Q
    [ok_reply (record_with_status "processing");
     ok_reply (JObj {["status" := JNum 7]})].

(** The service answers 300 Multiple Choices, without a [Location] header
    to follow, and with an empty JSON object as the body. *)
Definition multiple_choices : response :=
  {| status_code := 300; body := Some (JObj ∅) |}.

Definition env_multiple_choices : env :=
  scripted [0%Q] [Some multiple_choices].

(** The clock is set back between the two readings (100, then 50); the
    poll finds the settlement completed. *)
Definition env_clock_set_back : env :=
  scripted [100; 50]%Q [ok_reply (record_with_status "completed")].

(** Two readings whose exact difference is just below 120 seconds and whose
    float difference is 120.0: the floats nearest to 4.426350301 and
    124.426350301. *)
Definition env_rounds_to_limit : env :=
  scripted [4983627391548721 # 1125899906842624;
            8755726013291475 # 70368744177664]%Q
    [ok_reply (record_with_status "completed")].

(** The service answers 404. *)
Definition not_found : response :=
  {| status_code := 404; body := None |}.

Definition env_not_found : env := scripted [0%Q] [Some not_found].

(** The service answers 200 with an empty JSON object. *)
Definition env_ok : env := scripted [0%Q] [ok_reply (JObj ∅)].

(** The exception one exchange ends in, if it does: no response, a status in
    the error ranges, or a body that does not decode. *)
Definition exchange_error (o : option response) : option exn :=
  match o with
  | None => Some ConnectionError
  | Some r =>
      if is_http_error (status_code r) then Some (HTTPError r)
      else match body r with
           | Some _ => None
           | None => Some JSONDecodeError
           end
  end.

(** The events of [k] rounds of poll-then-sleep, followed by one more poll when
    [last] is set. *)
Definition poll_events (c : client) (settlement_id : string)
    (k : nat) (last : bool) : list event :=
  (mjoin (replicate k [EvHttp (status_request c settlement_id); EvSleep 2]) ++
   (if last then [EvHttp (status_request c settlement_id)] else []))%list.

(** The exception [status["status"]] raises on a body without that entry. *)
Definition missing_status_error (j : json) : exn :=
  match j with
  | JObj _ => KeyError "status"
  | _ => TypeError
  end.

(** No reply at all: every request fails in the transport. *)
Definition env_offline : env := scripted [0; 1; 3; 5]%Q [].

(** A 200 response whose body is not JSON. *)
Definition not_json : response := {| status_code := 200; body := None |}.

Definition env_not_json : env := scripted [0; 1; 3; 5]%Q [Some not_json].

(** One pending poll, then the service answers 404. *)
Definition env_pending_then_404 : env :=
  scripted [0; 1; 3; 5]%Q
    [ok_reply (record_with_status "pending"); Some not_found].

(** One pending poll, then a record without a status, then a list. *)
Definition env_pending_then_no_status : env :=
  scripted [0; 1; 3; 5]%Q
    [ok_reply (record_with_status "pending");
     ok_reply (JObj {["id" := JStr "stl_1"]})].

(** The events a call added to the trace. *)
Definition new_events (s s' : state) : list event :=
  drop (length (trace s)) (trace s').

(** A request of the client built by [PayOSUCPClient(key, url)]: addressed
    under the configured base URL and carrying the three headers. *)
Definition from_client (key : string) (url : option string) (q : request)
    : Prop :=
  (exists path, req_url q = default "https://api.payos.com" url ++ path) /\
  req_headers q !! "Authorization" = Some ("Bearer " ++ key) /\
  req_headers q !! "Content-Type" = Some "application/json" /\
  req_headers q !! "UCP-Agent" = Some "PythonExample/2026-01-11".

(** Every request among the events a call added satisfies [P]. *)
Definition sends_only (P : request -> Prop) (s s' : state) : Prop :=
  forall q, EvHttp q ∈ new_events s s' -> P q.

(** An optional string argument as the [if x:] guards see it. *)
Definition supplied (x : option string) : option string :=
  match x with
  | Some t => if truthy_str t then Some t else None
  | None => None
  end.

(** The operation raises [e], having issued exactly one request. *)
Definition fails_with (e : exn) (op : M json) (s : state) : Prop :=
  fst (op s) = Raise e /\ exchanges (snd (op s)) = S (exchanges s).

(** A reading of the clock in January 2026: the float nearest to
    1768176000.7. *)
Definition sample_clock : Q := 7416267672440013 # 4194304.

(** Sample responses for the script. *)
Definition sample_quote : dict :=
  <["from_amount" := JStr "100"]>
    (<["to_amount" := JStr "512.50"]>
       (<["fx_rate" := JStr "5.2"]>
          (<["fees" := JStr "1.5"]>
             {["expires_at" := JStr "2026-01-11T00:05:00Z"]}))).

Definition sample_token : dict :=
  <["token" := JStr "tok_0123456789abcdefghij"]>
    (<["settlement_id" := JStr "stl_1"]>
       (<["quote" := JObj (<["fx_rate" := JStr "5.2"]>
                             {["to_amount" := JStr "512.50"]})]>
          {["expires_at" := JStr "2026-01-11T00:15:00Z"]})).

Definition sample_settlement (status : string) : dict :=
  <["id" := JStr "stl_9"]> {["status" := JStr status]}.

(** Every step of the script is answered; the second poll finds the
    settlement completed. *)
Definition env_script : env :=
  scripted [sample_clock; 0; 1; 3]%Q
    [ok_reply (JObj sample_quote); ok_reply (JObj sample_token);
     ok_reply (JObj (sample_settlement "pending"));
     ok_reply (JObj (sample_settlement "pending"));
     ok_reply (JObj (sample_settlement "completed"))].



(** On a scripted environment: the poll is answered by the record [j], whose
    status is neither completed nor failed. *)
Ltac answered_by j :=
  exists j; split;
  [ eexists; split; [reflexivity | split; reflexivity]
  | eexists; split; [reflexivity | split; discriminate] ].

(** ** Basic facts about the primitives *)

Lemma Qltb_lt (x y : Q) : Qltb x y = true <-> (x < y)%Q.
Proof.
  unfold Qltb. rewrite negb_true_iff. split.
  - intros H. apply Qnot_le_lt. intros Hle.
    apply Qle_bool_iff in Hle. congruence.
  - intros H. destruct (Qle_bool y x) eqn:Hb; [|reflexivity].
    apply Qle_bool_iff in Hb. exfalso. exact (Qlt_not_le _ _ H Hb).
Qed.

Lemma Qltb_nlt (x y : Q) : Qltb x y = false <-> ~ (x < y)%Q.
Proof.
  rewrite <- Qltb_lt. destruct (Qltb x y); split; congruence.
Qed.

(** *** The rounding on known values *)

(** One tenth and one third round to their binary64 neighbours; an odd
    integer above [2^53] rounds to the even significand; half the smallest
    subnormal rounds to zero and three halves of it to twice it; the
    midpoint above the largest finite number overflows. *)
Example round64_known_values :
  is_binary64 (1 # 10) = false /\
  is_binary64 (3602879701896397 # 36028797018963968) = true /\
  match round64 (1 # 10) with
  | Finite v => (v == 3602879701896397 # 36028797018963968)%Q
  | _ => False
  end /\
  match round64 (- (1 # 3)) with
  | Finite v => (v == - (6004799503160661 # 18014398509481984))%Q
  | _ => False
  end /\
  match round64 (inject_Z (2 ^ 53 + 1)) with
  | Finite v => (v == inject_Z (2 ^ 53))%Q
  | _ => False
  end /\
  match round64 (inject_Z (2 ^ 53 + 3)) with
  | Finite v => (v == inject_Z (2 ^ 53 + 4))%Q
  | _ => False
  end /\
  match round64 (1 # Z.to_pos (2 ^ 1075)) with
  | Finite v => (v == 0)%Q
  | _ => False
  end /\
  match round64 (3 # Z.to_pos (2 ^ 1075)) with
  | Finite v => (v == 1 # Z.to_pos (2 ^ 1073))%Q
  | _ => False
  end /\
  match round64 (inject_Z (2 ^ 1024 - 2 ^ 970 - 1)) with
  | Finite v => (v == inject_Z (2 ^ 1024 - 2 ^ 971))%Q
  | _ => False
  end /\
  round64 (inject_Z (2 ^ 1024 - 2 ^ 970)) = PlusInf /\
  round64 (- inject_Z (2 ^ 1024 - 2 ^ 970)) = MinusInf.
Proof. vm_compute. repeat split. Qed.

(** The clock readings of the sample environments are floats. *)
Example sample_readings_are_floats :
  forallb is_binary64
    [0; 1; 2; 3; 4; 5; 50; 100; sample_clock;
     4983627391548721 # 1125899906842624;
     8755726013291475 # 70368744177664]%Q = true.
Proof. vm_compute. reflexivity. Qed.

(** *** Float subtraction never turns a non-negative difference negative *)

Lemma round_half_even_nonneg (num den : Z) :
  (0 <= num)%Z -> (0 < den)%Z -> (0 <= round_half_even num den)%Z.
Proof.
  intros Hn Hd. unfold round_half_even.
  assert (Hm : (0 <= num / den)%Z) by (apply Z.div_pos; lia).
  destruct (2 * (num mod den) ?= den)%Z; [|lia|lia].
  destruct (Z.even (num / den)); lia.
Qed.

Lemma pow2_nonneg (p : Z) : (0 <= pow2 p)%Q.
Proof.
  unfold pow2. destruct (0 <=? p)%Z eqn:Hp.
  - change 0%Q with (inject_Z 0). rewrite <- Zle_Qle.
    apply Z.pow_nonneg. lia.
  - unfold Qle; simpl. lia.
Qed.

Lemma round_pos_sign (a d : Z) :
  (0 < a)%Z -> (0 < d)%Z ->
  match round_pos a d with
  | Finite v => (0 <= v)%Q
  | PlusInf => True
  | MinusInf => False
  end.
Proof.
  intros Ha Hd. unfold round_pos.
  set (p := Z.max (binade a d - 52) (-1074)).
  set (m := round_half_even _ _).
  assert (Hm : (0 <= m)%Z).
  { apply round_half_even_nonneg.
    - apply Z.mul_nonneg_nonneg; [lia|]. apply Z.pow_nonneg. lia.
    - apply Z.mul_pos_pos; [lia|]. apply Z.pow_pos_nonneg; lia. }
  destruct (2 ^ 1024 <=? m * 2 ^ Z.max 0 p)%Z; [exact I|].
  apply Qmult_le_0_compat; [|apply pow2_nonneg].
  change 0%Q with (inject_Z 0). rewrite <- Zle_Qle. exact Hm.
Qed.

Lemma round64_sign (q : Q) :
  (0 <= q)%Q ->
  match round64 q with
  | Finite v => (0 <= v)%Q
  | PlusInf => True
  | MinusInf => False
  end.
Proof.
  intros Hq. unfold round64. destruct q as [n d]. simpl.
  unfold Qle in Hq; simpl in Hq.
  destruct n as [|a|a]; [apply Qle_refl | | lia].
  apply round_pos_sign; lia.
Qed.

(** With a clock that did not run backwards, the elapsed time computed by
    the loop condition is below no limit that is zero or negative. *)
Lemma float_sub_not_below (x y : Q) (n : Z) :
  (y <= x)%Q -> (n <= 0)%Z -> float_lt_int (float_sub x y) n = false.
Proof.
  intros Hxy Hn. unfold float_sub.
  assert (Hd : (0 <= x - y)%Q) by lra.
  pose proof (round64_sign (x - y) Hd) as Hs.
  destruct (round64 (x - y)) as [v| |]; simpl; [|reflexivity|contradiction].
  apply Qltb_nlt. intros Hlt.
  assert (Hz : (inject_Z n <= 0)%Q).
  { change 0%Q with (inject_Z 0). rewrite <- Zle_Qle. exact Hn. }
  lra.
Qed.

Lemma py_eq_str_true (v : json) (s : string) :
  py_eq_str v s = true <-> v = JStr s.
Proof.
  destruct v; simpl; try (split; [discriminate | congruence]).
  rewrite bool_decide_eq_true. split; congruence.
Qed.

Lemma py_eq_str_false (v : json) (s : string) :
  py_eq_str v s = false <-> v <> JStr s.
Proof.
  rewrite <- py_eq_str_true. destruct (py_eq_str v s); split; congruence.
Qed.

Lemma truthy_str_true (s : string) : truthy_str s = true <-> s <> "".
Proof.
  unfold truthy_str. rewrite negb_true_iff, bool_decide_eq_false. tauto.
Qed.

Lemma truthy_dict_true (d : dict) : truthy_dict d = true <-> d <> ∅.
Proof.
  unfold truthy_dict. rewrite negb_true_iff, bool_decide_eq_false. tauto.
Qed.

Lemma is_http_error_range (code : Z) :
  is_http_error code = true <-> (400 <= code < 600)%Z.
Proof. unfold is_http_error. rewrite andb_true_iff. lia. Qed.

(** ** One HTTP operation: a single exchange, then the status check, then the
    decoding *)

Section Exchange.

Variable E : env.
Local Abbreviation call := (call E).

Lemma call_state (r : request) (s : state) :
  snd (call r s) = served (log (EvHttp r) s).
Proof.
  unfold call, bind, send, raise_for_status, response_json, raise, ret.
  destruct (reply_at E (exchanges s)) as [resp|]; simpl; [|reflexivity].
  destruct (is_http_error (status_code resp)); simpl; [reflexivity|].
  destruct (body resp); reflexivity.
Qed.

Lemma call_transport_failure (r : request) (s : state) :
  reply_at E (exchanges s) = None ->
  fst (call r s) = Raise ConnectionError.
Proof.
  intros H. unfold call, bind, send. rewrite H. reflexivity.
Qed.

Lemma call_http_error (r : request) (s : state) (resp : response) :
  reply_at E (exchanges s) = Some resp ->
  is_http_error (status_code resp) = true ->
  fst (call r s) = Raise (HTTPError resp).
Proof.
  intros H Herr. unfold call, bind, send, raise_for_status.
  rewrite H; simpl. rewrite Herr. reflexivity.
Qed.

Lemma call_passed (r : request) (s : state) (resp : response) :
  reply_at E (exchanges s) = Some resp ->
  is_http_error (status_code resp) = false ->
  fst (call r s) =
    match body resp with
    | Some j => Return j
    | None => Raise JSONDecodeError
    end.
Proof.
  intros H Herr. unfold call, bind, send, raise_for_status, response_json.
  rewrite H; simpl. rewrite Herr; simpl.
  destruct (body resp); reflexivity.
Qed.

Lemma call_answered (r : request) (s : state) (j : json) :
  answers E (exchanges s) j ->
  call r s = (Return j, served (log (EvHttp r) s)).
Proof.
  intros (resp & Hr & Hok & Hb).
  rewrite (surjective_pairing (call r s)), call_state.
  rewrite (call_passed r s resp Hr Hok), Hb. reflexivity.
Qed.

(** Each operation of the client is one [call]. *)
Lemma get_quote_call corridor amount currency s :
  get_quote E corridor amount currency s =
  call (post_request (self s) "/v1/ucp/quote"
          (quote_payload corridor amount currency)) s.
Proof. reflexivity. Qed.

Lemma acquire_token_call corridor amount currency recipient metadata s :
  acquire_token E corridor amount currency recipient metadata s =
  call (post_request (self s) "/v1/ucp/tokens"
          (token_payload corridor amount currency recipient metadata)) s.
Proof. reflexivity. Qed.

Lemma settle_call token key s :
  settle E token key s =
  call (post_request (self s) "/v1/ucp/settle" (settle_payload token key)) s.
Proof. reflexivity. Qed.

Lemma get_settlement_status_call settlement_id s :
  get_settlement_status E settlement_id s =
  call (status_request (self s) settlement_id) s.
Proof. reflexivity. Qed.

End Exchange.

(** ** The polling loop, one iteration at a time *)

Section Polling.

Variable E : env.
Variables (settlement_id : string) (t0 : Q) (mw : Z).

Local Abbreviation loop := (fun fuel => poll_loop E fuel settlement_id t0 mw).

Lemma after_rounds_0 (s : state) : after_rounds 0 settlement_id s = s.
Proof.
  destruct s as [c k h tr]. unfold after_rounds; simpl.
  rewrite !Nat.add_0_r, app_nil_r. reflexivity.
Qed.

Lemma after_rounds_S (n : nat) (s : state) :
  after_rounds n settlement_id (after_rounds 1 settlement_id s) =
  after_rounds (S n) settlement_id s.
Proof.
  unfold after_rounds; simpl. f_equal; try lia.
  rewrite <- app_assoc. reflexivity.
Qed.

Lemma after_rounds_1 (s : state) :
  log (EvSleep 2) (polled settlement_id (tick s)) =
  after_rounds 1 settlement_id s.
Proof.
  unfold after_rounds, polled, log, served, tick; simpl.
  f_equal; try lia. rewrite <- app_assoc. reflexivity.
Qed.

(** The deadline has passed at the check: the loop ends with the timeout. *)
Lemma poll_loop_deadline (fuel : nat) (s : state) :
  ~ before_deadline E t0 mw (clock_reads s) ->
  loop (S fuel) s = (Raise (Exception_ "Settlement timed out"), tick s).
Proof.
  intros Hd. apply not_true_is_false in Hd.
  cbn [poll_loop]. unfold bind at 1, time_time.
  rewrite Hd. reflexivity.
Qed.

(** The poll finds a record that is neither completed nor failed: the loop
    sleeps two seconds and goes round again. *)
Lemma poll_loop_round (fuel : nat) (s : state) (j : json) :
  before_deadline E t0 mw (clock_reads s) ->
  answers E (exchanges s) j ->
  nonterminal j ->
  loop (S fuel) s = loop fuel (after_rounds 1 settlement_id s).
Proof.
  intros Hd Ha (v & Hv & Hc & Hf). unfold before_deadline in Hd.
  apply py_eq_str_false in Hc, Hf.
  cbn [poll_loop]. unfold bind at 1, time_time. rewrite Hd.
  unfold bind at 1. rewrite get_settlement_status_call.
  rewrite (call_answered E _ (tick s) j Ha).
  destruct j; simpl in Hv; try discriminate.
  unfold bind, subscript, ret, time_sleep. rewrite Hv, Hc, Hf.
  fold (polled settlement_id (tick s)). rewrite after_rounds_1. reflexivity.
Qed.

(** The poll finds a completed record: it is returned. *)
Lemma poll_loop_completed (fuel : nat) (s : state) (j : json) :
  before_deadline E t0 mw (clock_reads s) ->
  answers E (exchanges s) j ->
  status_of j = Some (JStr "completed") ->
  loop (S fuel) s = (Return j, polled settlement_id (tick s)).
Proof.
  intros Hd Ha Hv. unfold before_deadline in Hd.
  cbn [poll_loop]. unfold bind at 1, time_time. rewrite Hd.
  unfold bind at 1. rewrite get_settlement_status_call.
  rewrite (call_answered E _ (tick s) j Ha).
  destruct j; simpl in Hv; try discriminate.
  unfold bind, subscript, ret. rewrite Hv. reflexivity.
Qed.

(** The poll finds a failed record: the failure is raised, with the
    record's reason printed into the message. *)
Lemma poll_loop_failed (fuel : nat) (s : state) (j : json) :
  before_deadline E t0 mw (clock_reads s) ->
  answers E (exchanges s) j ->
  status_of j = Some (JStr "failed") ->
  loop (S fuel) s =
    (Raise (Exception_ ("Settlement failed: " ++ py_str E (reason_of j))),
     polled settlement_id (tick s)).
Proof.
  intros Hd Ha Hv. unfold before_deadline in Hd.
  cbn [poll_loop]. unfold bind at 1, time_time. rewrite Hd.
  unfold bind at 1. rewrite get_settlement_status_call.
  rewrite (call_answered E _ (tick s) j Ha).
  destruct j; simpl in Hv; try discriminate.
  unfold bind, subscript, dict_get, ret, raise. rewrite Hv. reflexivity.
Qed.

(** [n] rounds in a row. *)
Lemma poll_loop_rounds (n fuel : nat) (s : state) :
  (forall i, i < n -> before_deadline E t0 mw (clock_reads s + i)) ->
  (forall i, i < n -> exists j, answers E (exchanges s + i) j /\ nonterminal j) ->
  loop (n + fuel) s = loop fuel (after_rounds n settlement_id s).
Proof.
  revert s. induction n as [|n IH]; intros s Hd Hp.
  - rewrite after_rounds_0. reflexivity.
  - destruct (Hp 0) as (j & Ha & Hn); [lia|].
    rewrite Nat.add_0_r in Ha.
    change (S n + fuel) with (S (n + fuel)).
    rewrite (poll_loop_round _ s j); [| specialize (Hd 0); rewrite Nat.add_0_r in Hd; apply Hd; lia | exact Ha | exact Hn].
    rewrite IH, after_rounds_S; [reflexivity| |].
    + intros i Hi. specialize (Hd (S i)).
      replace (clock_reads (after_rounds 1 settlement_id s) + i)
        with (clock_reads s + S i) by (simpl; lia).
      apply Hd; lia.
    + intros i Hi.
      replace (exchanges (after_rounds 1 settlement_id s) + i)
        with (exchanges s + S i) by (simpl; lia).
      apply Hp; lia.
Qed.

End Polling.

(** ** [wait_for_completion] *)

Section Waiting.

Variable E : env.
Variable settlement_id : string.

Lemma wait_for_completion_unfold (fuel : nat) (mw : option Z) (s : state) :
  wait_for_completion E fuel settlement_id mw s =
  poll_loop E fuel settlement_id (now_at E (clock_reads s))
    (default 120%Z mw) (tick s).
Proof. reflexivity. Qed.

(** Whatever the loop returns is a record whose status is ["completed"]. *)
Lemma poll_loop_returns_completed (fuel : nat) (t0 : Q) (mw : Z)
    (s s' : state) (r : json) :
  poll_loop E fuel settlement_id t0 mw s = (Return r, s') ->
  status_of r = Some (JStr "completed").
Proof.
  revert s. induction fuel as [|fuel IH]; intros s H; [discriminate|].
  cbn [poll_loop] in H. unfold bind at 1, time_time in H.
  destruct (float_lt_int _ _); [|discriminate].
  unfold bind at 1 in H.
  destruct (get_settlement_status E settlement_id (tick s)) as [[j|e|] s1];
    try discriminate.
  unfold bind, subscript, dict_get, ret, raise, time_sleep in H.
  destruct j; try discriminate.
  destruct (o !! "status") as [v|] eqn:Hv; try discriminate.
  destruct (py_eq_str v "completed") eqn:Hc.
  - apply py_eq_str_true in Hc. inversion H; subst. exact Hv.
  - destruct (py_eq_str v "failed"); [discriminate|].
    eapply IH, H.
Qed.

(** [n] rounds without a terminal status, the deadline first passed at the
    check after them: the timeout, after exactly those rounds. *)
Lemma wait_rounds_then_timeout (mw : option Z) (s : state) (n fuel : nat) :
  (forall i, i < n ->
     before_deadline E (now_at E (clock_reads s)) (default 120%Z mw)
       (S (clock_reads s) + i)) ->
  ~ before_deadline E (now_at E (clock_reads s)) (default 120%Z mw)
      (S (clock_reads s) + n) ->
  (forall i, i < n ->
     exists j, answers E (exchanges s + i) j /\ nonterminal j) ->
  n < fuel ->
  wait_for_completion E fuel settlement_id mw s =
    (Raise (Exception_ "Settlement timed out"),
     tick (after_rounds n settlement_id (tick s))).
Proof.
  intros Hd Hend Hp Hfuel. rewrite wait_for_completion_unfold.
  replace fuel with (n + S (fuel - S n)) by lia.
  rewrite poll_loop_rounds; [| exact Hd | exact Hp].
  apply poll_loop_deadline. simpl.
  replace (S (clock_reads s + n)) with (S (clock_reads s) + n) by lia.
  exact Hend.
Qed.

(** C1: if the polls made before the deadline all return a record whose
    status is neither completed nor failed, and the deadline then elapses,
    [wait_for_completion] raises "Settlement timed out"; and it never
    returns a record that is not completed. *)
Theorem wait_for_completion_times_out
    (mw : option Z) (s : state) (n fuel : nat) :
  (forall i, i < n ->
     before_deadline E (now_at E (clock_reads s)) (default 120%Z mw)
       (S (clock_reads s) + i)) ->
  ~ before_deadline E (now_at E (clock_reads s)) (default 120%Z mw)
      (S (clock_reads s) + n) ->
  (forall i, i < n ->
     exists j, answers E (exchanges s + i) j /\ nonterminal j) ->
  n < fuel ->
  fst (wait_for_completion E fuel settlement_id mw s) =
    Raise (Exception_ "Settlement timed out") /\
  (forall fuel' s0 r,
     fst (wait_for_completion E fuel' settlement_id mw s0) = Return r ->
     status_of r = Some (JStr "completed")).
Proof.
  intros Hd Hend Hp Hfuel. split.
  - rewrite (wait_rounds_then_timeout mw s n fuel Hd Hend Hp Hfuel).
    reflexivity.
  - intros fuel' s0 r Hr. rewrite wait_for_completion_unfold in Hr.
    destruct (poll_loop E fuel' settlement_id _ _ (tick s0)) as [o s1] eqn:Hl.
    simpl in Hr; subst o.
    exact (poll_loop_returns_completed _ _ _ _ _ _ Hl).
Qed.

(** C10: a polled record whose status is anything but the strings
    "completed" and "failed" sends the loop to sleep two seconds and to poll
    again; when the deadline elapses after [n] such polls the run is
    exactly [n] rounds of poll-then-sleep and ends in the timeout error. *)
Theorem poll_loop_stops_only_on_terminal_status
    (mw : option Z) (s : state) (n fuel : nat) :
  (forall i, i < n ->
     before_deadline E (now_at E (clock_reads s)) (default 120%Z mw)
       (S (clock_reads s) + i)) ->
  ~ before_deadline E (now_at E (clock_reads s)) (default 120%Z mw)
      (S (clock_reads s) + n) ->
  (forall i, i < n ->
     exists o v, answers E (exchanges s + i) (JObj o) /\
                 o !! "status" = Some v /\
                 v <> JStr "completed" /\ v <> JStr "failed") ->
  n < fuel ->
  fst (wait_for_completion E fuel settlement_id mw s) =
    Raise (Exception_ "Settlement timed out") /\
  exchanges (snd (wait_for_completion E fuel settlement_id mw s)) =
    exchanges s + n /\
  trace (snd (wait_for_completion E fuel settlement_id mw s)) =
    (trace s ++
     mjoin (replicate n [EvHttp (status_request (self s) settlement_id);
                         EvSleep 2]))%list.
Proof.
  intros Hd Hend Hp Hfuel.
  rewrite (wait_rounds_then_timeout mw s n fuel Hd Hend); [| | exact Hfuel].
  - repeat split; reflexivity.
  - intros i Hi. destruct (Hp i Hi) as (o & v & Ha & Hv & Hc & Hf).
    exists (JObj o). split; [exact Ha|]. exists v. auto.
Qed.

End Waiting.

Section Outcomes.

Variable E : env.
Variable settlement_id : string.

Lemma pending_nonterminal (j : json) :
  status_of j = Some (JStr "pending") -> nonterminal j.
Proof. intros H. exists (JStr "pending"). repeat split; [exact H | |]; discriminate. Qed.

(** C2: against the status sequence pending, pending, completed, with the
    deadline not reached at the three checks, [wait_for_completion] returns
    the third record, the completed one, after three polls separated by
    exactly two sleeps of two seconds. *)
Theorem wait_for_completion_pending_pending_completed
    (mw : option Z) (s : state) (fuel : nat) (r0 r1 r2 : json) :
  answers E (exchanges s) r0 ->
  answers E (exchanges s + 1) r1 ->
  answers E (exchanges s + 2) r2 ->
  status_of r0 = Some (JStr "pending") ->
  status_of r1 = Some (JStr "pending") ->
  status_of r2 = Some (JStr "completed") ->
  (forall i, i < 3 ->
     before_deadline E (now_at E (clock_reads s)) (default 120%Z mw)
       (S (clock_reads s) + i)) ->
  3 <= fuel ->
  fst (wait_for_completion E fuel settlement_id mw s) = Return r2 /\
  exchanges (snd (wait_for_completion E fuel settlement_id mw s)) =
    exchanges s + 3 /\
  trace (snd (wait_for_completion E fuel settlement_id mw s)) =
    (trace s ++
     [EvHttp (status_request (self s) settlement_id); EvSleep 2;
      EvHttp (status_request (self s) settlement_id); EvSleep 2;
      EvHttp (status_request (self s) settlement_id)])%list.
Proof.
  intros A0 A1 A2 S0 S1 S2 Hd Hfuel.
  rewrite wait_for_completion_unfold.
  replace fuel with (2 + S (fuel - 3)) by lia.
  rewrite poll_loop_rounds.
  - rewrite (poll_loop_completed E settlement_id _ _ _ _ r2); cycle 1.
    + simpl. replace (S (clock_reads s + 2)) with (S (clock_reads s) + 2) by lia.
      apply Hd; lia.
    + exact A2.
    + exact S2.
    + simpl. repeat split; [lia|].
      rewrite <- app_assoc. reflexivity.
  - intros i Hi. apply Hd; lia.
  - intros i Hi. destruct i as [|[|i]]; [| |lia]; simpl.
    + exists r0. rewrite Nat.add_0_r. auto using pending_nonterminal.
    + exists r1. auto using pending_nonterminal.
Qed.

(** C3: when a poll made before the deadline returns a record whose status
    is "failed", [wait_for_completion] raises an exception (it does not
    return) whose message is "Settlement failed: " followed by the record's
    [failure_reason] as [str()] prints it: the reason itself when it is
    text. *)
Theorem wait_for_completion_failed
    (mw : option Z) (s : state) (n fuel : nat) (j : json) :
  (forall i, i <= n ->
     before_deadline E (now_at E (clock_reads s)) (default 120%Z mw)
       (S (clock_reads s) + i)) ->
  (forall i, i < n ->
     exists j', answers E (exchanges s + i) j' /\ nonterminal j') ->
  answers E (exchanges s + n) j ->
  status_of j = Some (JStr "failed") ->
  n < fuel ->
  fst (wait_for_completion E fuel settlement_id mw s) =
    Raise (Exception_ ("Settlement failed: " ++ py_str E (reason_of j))) /\
  (forall why, reason_of j = Some (JStr why) ->
     fst (wait_for_completion E fuel settlement_id mw s) =
       Raise (Exception_ ("Settlement failed: " ++ why))).
Proof.
  intros Hd Hp Ha Hs Hfuel.
  assert (Hrun : fst (wait_for_completion E fuel settlement_id mw s) =
    Raise (Exception_ ("Settlement failed: " ++ py_str E (reason_of j)))).
  { rewrite wait_for_completion_unfold.
    replace fuel with (n + S (fuel - S n)) by lia.
    rewrite poll_loop_rounds.
    - rewrite (poll_loop_failed E settlement_id _ _ _ _ j);
        [reflexivity | | exact Ha | exact Hs].
      simpl. replace (S (clock_reads s + n)) with (S (clock_reads s) + n) by lia.
      apply Hd; lia.
    - intros i Hi. apply Hd; lia.
    - exact Hp. }
  split; [exact Hrun|].
  intros why Hwhy. rewrite Hrun, Hwhy. reflexivity.
Qed.

(** C9, amended: with [max_wait_seconds <= 0] and a clock whose second
    reading is not earlier than its first, [wait_for_completion] raises the
    timeout at once: no request is issued, nothing is slept. *)
Theorem wait_for_completion_nonpositive_wait
    (mw : Z) (s : state) (fuel : nat) :
  (mw <= 0)%Z ->
  (now_at E (clock_reads s) <= now_at E (S (clock_reads s)))%Q ->
  0 < fuel ->
  fst (wait_for_completion E fuel settlement_id (Some mw) s) =
    Raise (Exception_ "Settlement timed out") /\
  exchanges (snd (wait_for_completion E fuel settlement_id (Some mw) s)) =
    exchanges s /\
  trace (snd (wait_for_completion E fuel settlement_id (Some mw) s)) =
    trace s.
Proof.
  intros Hmw Hclock Hfuel.
  rewrite wait_for_completion_unfold.
  destruct fuel as [|fuel]; [lia|].
  rewrite poll_loop_deadline; [repeat split; reflexivity|].
  unfold before_deadline.
  change (clock_reads (tick s)) with (S (clock_reads s)).
  change (default 120%Z (Some mw)) with mw.
  rewrite (float_sub_not_below _ _ mw Hclock Hmw). discriminate.
Qed.

End Outcomes.

(** ** The configuration of the client is read-only *)

Section Frame.

Variable E : env.

Lemma keeps_self_ret {A} (a : A) : keeps_self (ret a).
Proof. intros s. reflexivity. Qed.

Lemma keeps_self_raise {A} (e : exn) : keeps_self (@raise A e).
Proof. intros s. reflexivity. Qed.

Lemma keeps_self_bind {A B} (m : M A) (k : A -> M B) :
  keeps_self m -> (forall a, keeps_self (k a)) -> keeps_self (bind m k).
Proof.
  intros Hm Hk s. unfold bind. specialize (Hm s).
  destruct (m s) as [[a|e|] s1]; simpl in *; [|exact Hm|exact Hm].
  rewrite Hk. exact Hm.
Qed.

Lemma keeps_self_time_time : keeps_self (time_time E).
Proof. intros s. reflexivity. Qed.

Lemma keeps_self_time_sleep (secs : Z) : keeps_self (time_sleep secs).
Proof. intros s. reflexivity. Qed.

Lemma keeps_self_call (f : client -> request) :
  keeps_self (fun s => call E (f (self s)) s).
Proof. intros s. rewrite call_state. reflexivity. Qed.

Lemma keeps_self_subscript (v : json) (k : string) : keeps_self (subscript v k).
Proof.
  intros s. unfold subscript. destruct v; try reflexivity.
  destruct (o !! k); reflexivity.
Qed.

Lemma keeps_self_dict_get (v : json) (k : string) : keeps_self (dict_get v k).
Proof. intros s. unfold dict_get. destruct v; reflexivity. Qed.

Lemma keeps_self_get_settlement_status (settlement_id : string) :
  keeps_self (get_settlement_status E settlement_id).
Proof.
  exact (keeps_self_call (fun c => status_request c settlement_id)).
Qed.

Lemma keeps_self_poll_loop (fuel : nat) (settlement_id : string)
    (t0 : Q) (mw : Z) :
  keeps_self (poll_loop E fuel settlement_id t0 mw).
Proof.
  induction fuel as [|fuel IH]; [intros s; reflexivity|].
  cbn [poll_loop].
  apply keeps_self_bind; [apply keeps_self_time_time|]. intros now.
  destruct (float_lt_int _ _); [|apply keeps_self_raise].
  apply keeps_self_bind; [apply keeps_self_get_settlement_status|].
  intros status.
  apply keeps_self_bind; [apply keeps_self_subscript|]. intros st.
  destruct (py_eq_str st "completed"); [apply keeps_self_ret|].
  apply keeps_self_bind; [apply keeps_self_subscript|]. intros st'.
  destruct (py_eq_str st' "failed").
  - apply keeps_self_bind; [apply keeps_self_dict_get|]. intros reason.
    apply keeps_self_raise.
  - apply keeps_self_bind; [apply keeps_self_time_sleep|]. intros _.
    exact IH.
Qed.

(** C8: every operation of the client leaves [api_key], [base_url] and
    [headers] of [self] as [__init__] set them. *)
Theorem client_configuration_read_only (s : state) :
  (forall corridor amount currency,
     self (snd (get_quote E corridor amount currency s)) = self s) /\
  (forall corridor amount currency recipient metadata,
     self (snd (acquire_token E corridor amount currency recipient metadata s))
     = self s) /\
  (forall token key, self (snd (settle E token key s)) = self s) /\
  (forall settlement_id,
     self (snd (get_settlement_status E settlement_id s)) = self s) /\
  (forall fuel settlement_id mw,
     self (snd (wait_for_completion E fuel settlement_id mw s)) = self s).
Proof.
  repeat split; intros.
  - rewrite get_quote_call, call_state. reflexivity.
  - rewrite acquire_token_call, call_state. reflexivity.
  - rewrite settle_call, call_state. reflexivity.
  - apply keeps_self_get_settlement_status.
  - rewrite wait_for_completion_unfold.
    rewrite (keeps_self_poll_loop fuel settlement_id _ _ (tick s)).
    reflexivity.
Qed.

End Frame.

(** ** HTTP errors *)

Section Errors.

Variable E : env.

Lemma call_http_contract (q : request) (s : state) (r : response) :
  reply_at E (exchanges s) = Some r ->
  http_contract (call E q) s r.
Proof.
  intros Hr. unfold http_contract.
  rewrite <- is_http_error_range.
  destruct (is_http_error (status_code r)) eqn:Herr.
  - rewrite (call_http_error E q s r Hr Herr), call_state.
    split; [tauto|]. split; [tauto|]. split; [|reflexivity].
    intros Hno. exfalso. apply Hno. reflexivity.
  - rewrite (call_passed E q s r Hr Herr), call_state.
    split; [|split; [|split; [|reflexivity]]].
    + split; [|discriminate]. destruct (body r); discriminate.
    + intros [r' H]. destruct (body r); discriminate.
    + intros _ j Hj. rewrite Hj. reflexivity.
Qed.

(** C7, amended: each operation raises [HTTPError], carrying the response
    as received, exactly when the response status lies in 400..599 (what
    [raise_for_status] checks); for every other status, the 2xx ones
    included, it returns the decoded body unchanged; and it issues exactly
    one request, so nothing is retried. *)
Theorem operations_raise_http_error_iff_4xx_5xx (s : state) (r : response) :
  reply_at E (exchanges s) = Some r ->
  (forall corridor amount currency,
     http_contract (get_quote E corridor amount currency) s r) /\
  (forall corridor amount currency recipient metadata,
     http_contract
       (acquire_token E corridor amount currency recipient metadata) s r) /\
  (forall token key, http_contract (settle E token key) s r) /\
  (forall settlement_id,
     http_contract (get_settlement_status E settlement_id) s r).
Proof.
  intros Hr. split; [|split; [|split]]; intros.
  - exact (call_http_contract
             (post_request (self s) "/v1/ucp/quote"
                (quote_payload corridor amount currency)) s r Hr).
  - exact (call_http_contract
             (post_request (self s) "/v1/ucp/tokens"
                (token_payload corridor amount currency recipient metadata))
             s r Hr).
  - exact (call_http_contract
             (post_request (self s) "/v1/ucp/settle"
                (settle_payload token key)) s r Hr).
  - exact (call_http_contract (status_request (self s) settlement_id) s r Hr).
Qed.

End Errors.

(** ** Optional fields *)

Section OptionalFields.

Lemma truthy_str_empty : truthy_str "" = false.
Proof. reflexivity. Qed.

Lemma create_pix_recipient_fields pix_key pix_key_type name opt :
  create_pix_recipient pix_key pix_key_type name opt !! "type"
    = Some (JStr "pix") /\
  create_pix_recipient pix_key pix_key_type name opt !! "pix_key"
    = Some (JStr pix_key) /\
  create_pix_recipient pix_key pix_key_type name opt !! "pix_key_type"
    = Some (JStr pix_key_type) /\
  create_pix_recipient pix_key pix_key_type name opt !! "name"
    = Some (JStr name).
Proof.
  unfold create_pix_recipient.
  destruct opt as [t|]; [destruct (truthy_str t)|];
    (split; [|split; [|split]]); by simplify_map_eq.
Qed.

Lemma create_spei_recipient_fields clabe name opt :
  create_spei_recipient clabe name opt !! "type" = Some (JStr "spei") /\
  create_spei_recipient clabe name opt !! "clabe" = Some (JStr clabe) /\
  create_spei_recipient clabe name opt !! "name" = Some (JStr name).
Proof.
  unfold create_spei_recipient.
  destruct opt as [t|]; [destruct (truthy_str t)|];
    (split; [|split]); by simplify_map_eq.
Qed.

Lemma create_pix_recipient_tax_id pix_key pix_key_type name opt :
  create_pix_recipient pix_key pix_key_type name opt !! "tax_id" =
  match opt with
  | Some t => if truthy_str t then Some (JStr t) else None
  | None => None
  end.
Proof.
  unfold create_pix_recipient.
  destruct opt as [t|]; [destruct (truthy_str t)|]; by simplify_map_eq.
Qed.

Lemma create_spei_recipient_rfc clabe name opt :
  create_spei_recipient clabe name opt !! "rfc" =
  match opt with
  | Some t => if truthy_str t then Some (JStr t) else None
  | None => None
  end.
Proof.
  unfold create_spei_recipient.
  destruct opt as [t|]; [destruct (truthy_str t)|]; by simplify_map_eq.
Qed.

(** C4, amended: the optional field ([tax_id], [rfc]) is left out when it
    is not supplied or is the empty string, and is included with exactly
    the supplied value when it is a non-empty string; the type tag, the key
    or account identifier and the name are the arguments, unchanged. *)
Theorem recipient_optional_field
    (pix_key pix_key_type clabe name : string) (opt : option string) :
  create_pix_recipient pix_key pix_key_type name opt !! "type"
    = Some (JStr "pix") /\
  create_pix_recipient pix_key pix_key_type name opt !! "pix_key"
    = Some (JStr pix_key) /\
  create_pix_recipient pix_key pix_key_type name opt !! "pix_key_type"
    = Some (JStr pix_key_type) /\
  create_pix_recipient pix_key pix_key_type name opt !! "name"
    = Some (JStr name) /\
  create_spei_recipient clabe name opt !! "type" = Some (JStr "spei") /\
  create_spei_recipient clabe name opt !! "clabe" = Some (JStr clabe) /\
  create_spei_recipient clabe name opt !! "name" = Some (JStr name) /\
  (opt = None \/ opt = Some "" ->
   create_pix_recipient pix_key pix_key_type name opt !! "tax_id" = None /\
   create_spei_recipient clabe name opt !! "rfc" = None) /\
  (forall t, opt = Some t -> t <> "" ->
   create_pix_recipient pix_key pix_key_type name opt !! "tax_id"
     = Some (JStr t) /\
   create_spei_recipient clabe name opt !! "rfc" = Some (JStr t)).
Proof.
  destruct (create_pix_recipient_fields pix_key pix_key_type name opt)
    as (P1 & P2 & P3 & P4).
  destruct (create_spei_recipient_fields clabe name opt) as (S1 & S2 & S3).
  do 7 (split; [assumption|]).
  rewrite create_pix_recipient_tax_id, create_spei_recipient_rfc.
  split.
  - intros [->| ->]; [|rewrite truthy_str_empty]; split; reflexivity.
  - intros t -> Ht. apply truthy_str_true in Ht. rewrite Ht.
    split; reflexivity.
Qed.

End OptionalFields.

(** ** Request payloads *)

Section Payloads.

Variable E : env.

Lemma settle_payload_token token key :
  settle_payload token key !! "token" = Some (JStr token).
Proof.
  unfold settle_payload.
  destruct key as [k|]; [destruct (truthy_str k)|]; by simplify_map_eq.
Qed.

Lemma settle_payload_idempotency_key token key :
  settle_payload token key !! "idempotency_key" =
  match key with
  | Some k => if truthy_str k then Some (JStr k) else None
  | None => None
  end.
Proof.
  unfold settle_payload.
  destruct key as [k|]; [destruct (truthy_str k)|]; by simplify_map_eq.
Qed.

Lemma truthy_dict_empty : truthy_dict ∅ = false.
Proof.
  unfold truthy_dict. rewrite bool_decide_eq_true_2; reflexivity.
Qed.

Lemma token_payload_fields corridor amount currency recipient metadata :
  token_payload corridor amount currency recipient metadata !! "corridor"
    = Some (JStr corridor) /\
  token_payload corridor amount currency recipient metadata !! "amount"
    = Some (JNum amount) /\
  token_payload corridor amount currency recipient metadata !! "currency"
    = Some (JStr currency) /\
  token_payload corridor amount currency recipient metadata !! "recipient"
    = Some (JObj recipient).
Proof.
  unfold token_payload.
  destruct metadata as [md|]; [destruct (truthy_dict md)|];
    (split; [|split; [|split]]); by simplify_map_eq.
Qed.

Lemma token_payload_metadata corridor amount currency recipient metadata :
  token_payload corridor amount currency recipient metadata !! "metadata" =
  match metadata with
  | Some md => if truthy_dict md then Some (JObj md) else None
  | None => None
  end.
Proof.
  unfold token_payload.
  destruct metadata as [md|]; [destruct (truthy_dict md)|];
    by simplify_map_eq.
Qed.

(** C5, amended: the payload [settle] posts holds ["token"] with the
    supplied token; it holds ["idempotency_key"] with exactly the supplied
    value when the key is a non-empty string, and has no such entry when the
    key is omitted or is the empty string. *)
Theorem settle_idempotency_key
    (token : string) (key : option string) (s : state) :
  exists payload : dict,
    trace (snd (settle E token key s)) =
      (trace s ++
       [EvHttp (post_request (self s) "/v1/ucp/settle" payload)])%list /\
    payload !! "token" = Some (JStr token) /\
    (key = None \/ key = Some "" -> payload !! "idempotency_key" = None) /\
    (forall k, key = Some k -> k <> "" ->
       payload !! "idempotency_key" = Some (JStr k)).
Proof.
  exists (settle_payload token key).
  split; [rewrite settle_call, call_state; reflexivity|].
  split; [apply settle_payload_token|].
  rewrite settle_payload_idempotency_key. split.
  - intros [->| ->]; reflexivity.
  - intros k -> Hk. apply truthy_str_true in Hk. rewrite Hk. reflexivity.
Qed.

(** C6, amended: the payload [acquire_token] posts holds the corridor, the
    amount, the currency and the recipient as supplied; it holds
    ["metadata"] with exactly the supplied dictionary when that is
    non-empty, and has no such entry when metadata is omitted or is the
    empty dictionary. *)
Theorem acquire_token_metadata
    (corridor : string) (amount : Q) (currency : string)
    (recipient : dict) (metadata : option dict) (s : state) :
  exists payload : dict,
    trace (snd (acquire_token E corridor amount currency recipient metadata s))
      = (trace s ++
         [EvHttp (post_request (self s) "/v1/ucp/tokens" payload)])%list /\
    payload !! "corridor" = Some (JStr corridor) /\
    payload !! "amount" = Some (JNum amount) /\
    payload !! "currency" = Some (JStr currency) /\
    payload !! "recipient" = Some (JObj recipient) /\
    (metadata = None \/ metadata = Some ∅ -> payload !! "metadata" = None) /\
    (forall md, metadata = Some md -> md <> ∅ ->
       payload !! "metadata" = Some (JObj md)).
Proof.
  exists (token_payload corridor amount currency recipient metadata).
  split; [rewrite acquire_token_call, call_state; reflexivity|].
  destruct (token_payload_fields corridor amount currency recipient metadata)
    as (F1 & F2 & F3 & F4).
  do 4 (split; [assumption|]).
  rewrite token_payload_metadata. split.
  - intros [->| ->]; [|rewrite truthy_dict_empty]; reflexivity.
  - intros md -> Hmd. apply truthy_dict_true in Hmd. rewrite Hmd.
    reflexivity.
Qed.

End Payloads.

(** ** The statements at concrete inputs *)

Lemma wait_for_completion_times_out_witness :
  fst (wait_for_completion env_pending 3 "stl_1" (Some 4%Z)
         (init_state demo_client)) =
    Raise (Exception_ "Settlement timed out").
Proof.
  refine (proj1 (wait_for_completion_times_out env_pending "stl_1" (Some 4%Z)
                   (init_state demo_client) 2 3 _ _ _ _)).
  - intros i Hi. destruct i as [|[|i]]; [reflexivity | reflexivity | lia].
  - intros H. vm_compute in H. discriminate H.
  - intros i Hi. destruct i as [|[|i]]; [| | lia];
      answered_by (record_with_status "pending").
  - lia.
Defined.

Lemma poll_loop_stops_only_on_terminal_status_witness :
  fst (wait_for_completion env_unknown 3 "stl_1" (Some 4%Z)
         (init_state demo_client)) =
    Raise (Exception_ "Settlement timed out") /\
  exchanges (snd (wait_for_completion env_unknown 3 "stl_1" (Some 4%Z)
                    (init_state demo_client))) = 2.
Proof.
  assert (H := poll_loop_stops_only_on_terminal_status env_unknown "stl_1"
                 (Some 4%Z) (init_state demo_client) 2 3).
  destruct H as (H1 & H2 & _).
  - intros i Hi. destruct i as [|[|i]]; [reflexivity | reflexivity | lia].
  - intros H. vm_compute in H. discriminate H.
  - intros i Hi. destruct i as [|[|i]]; [| | lia].
    + exists (<["status" := JStr "processing"]> {["id" := JStr "stl_1"]}),
        (JStr "processing").
      split; [eexists; split; [reflexivity | split; reflexivity]|].
      split; [reflexivity | split; discriminate].
    + exists {["status" := JNum 7]}, (JNum 7).
      split; [eexists; split; [reflexivity | split; reflexivity]|].
      split; [reflexivity | split; discriminate].
  - lia.
  - split; [exact H1 | exact H2].
Defined.

Lemma wait_for_completion_pending_pending_completed_witness :
  fst (wait_for_completion env_completes 3 "stl_1" None
         (init_state demo_client)) =
    Return (record_with_status "completed") /\
  trace (snd (wait_for_completion env_completes 3 "stl_1" None
                (init_state demo_client))) =
    [EvHttp (status_request demo_client "stl_1"); EvSleep 2;
     EvHttp (status_request demo_client "stl_1"); EvSleep 2;
     EvHttp (status_request demo_client "stl_1")].
Proof.
  assert (H := wait_for_completion_pending_pending_completed env_completes
                 "stl_1" None (init_state demo_client) 3
                 (record_with_status "pending") (record_with_status "pending")
                 (record_with_status "completed")).
  destruct H as (H1 & _ & H3).
  - eexists; split; [reflexivity | split; reflexivity].
  - eexists; split; [reflexivity | split; reflexivity].
  - eexists; split; [reflexivity | split; reflexivity].
  - reflexivity.
  - reflexivity.
  - reflexivity.
  - intros i Hi. destruct i as [|[|[|i]]]; [reflexivity | reflexivity | reflexivity | lia].
  - lia.
  - split; [exact H1 | exact H3].
Defined.

Lemma wait_for_completion_failed_witness :
  fst (wait_for_completion env_fails 2 "stl_1" None (init_state demo_client)) =
    Raise (Exception_ "Settlement failed: insufficient_funds").
Proof.
  refine (proj2 (wait_for_completion_failed env_fails "stl_1" None
                   (init_state demo_client) 1 2
                   (failed_record "insufficient_funds") _ _ _ _ _)
            "insufficient_funds" _).
  - intros i Hi. destruct i as [|[|i]]; [reflexivity | reflexivity | lia].
  - intros i Hi. destruct i as [|i]; [| lia].
    answered_by (record_with_status "pending").
  - eexists; split; [reflexivity | split; reflexivity].
  - reflexivity.
  - lia.
  - reflexivity.
Defined.

Lemma wait_for_completion_nonpositive_wait_witness :
  fst (wait_for_completion env_completes 5 "stl_1" (Some 0%Z)
         (init_state demo_client)) =
    Raise (Exception_ "Settlement timed out") /\
  exchanges (snd (wait_for_completion env_completes 5 "stl_1" (Some 0%Z)
                    (init_state demo_client))) = 0 /\
  trace (snd (wait_for_completion env_completes 5 "stl_1" (Some 0%Z)
                (init_state demo_client))) = [].
Proof.
  apply (wait_for_completion_nonpositive_wait env_completes "stl_1" 0%Z
           (init_state demo_client) 5).
  - lia.
  - intros H. vm_compute in H. discriminate H.
  - lia.
Defined.

Lemma operations_raise_http_error_iff_4xx_5xx_witness :
  http_contract (get_quote env_not_found "pix" 100 "USD")
    (init_state demo_client) not_found /\
  fst (get_settlement_status env_not_found "stl_1" (init_state demo_client)) =
    Raise (HTTPError not_found).
Proof.
  assert (H := operations_raise_http_error_iff_4xx_5xx env_not_found
                 (init_state demo_client) not_found).
  destruct H as (H1 & _ & _ & H4); [reflexivity|].
  split; [exact (H1 "pix" 100%Q "USD")|].
  destruct (H4 "stl_1") as ((_ & Hback) & _).
  apply Hback. simpl. lia.
Defined.

(** ** Inputs on which the statements of the specification fail *)

(** An empty [tax_id] or [rfc], though supplied, is left out. *)
Lemma recipient_drops_empty_optional_field :
  create_pix_recipient "maria@email.com" "email" "Maria Silva" (Some "")
    !! "tax_id" = None /\
  create_spei_recipient "032180000118359719" "Juan Perez" (Some "")
    !! "rfc" = None.
Proof. split; vm_compute; reflexivity. Qed.

(** An empty [idempotency_key], though supplied, is left out of the payload. *)
Lemma settle_drops_empty_idempotency_key :
  exists payload : dict,
    trace (snd (settle env_ok "tok_1" (Some "") (init_state demo_client))) =
      [EvHttp (post_request demo_client "/v1/ucp/settle" payload)] /\
    payload !! "idempotency_key" = None.
Proof.
  exists {["token" := JStr "tok_1"]}. split; [reflexivity|].
  vm_compute; reflexivity.
Qed.

(** An empty [metadata] dictionary, though supplied, is left out of the
    payload. *)
Lemma acquire_token_drops_empty_metadata :
  exists payload : dict,
    trace (snd (acquire_token env_ok "pix" 100 "USD"
                  (create_pix_recipient "maria@email.com" "email"
                     "Maria Silva" None)
                  (Some ∅) (init_state demo_client))) =
      [EvHttp (post_request demo_client "/v1/ucp/tokens" payload)] /\
    payload !! "metadata" = None.
Proof.
  eexists. split; [reflexivity|].
  vm_compute; reflexivity.
Qed.

(** With [max_wait_seconds = 0] and a clock set back between the two
    readings, the loop condition holds: the settlement is polled and the
    record returned. *)
Lemma wait_for_completion_polls_when_clock_set_back :
  fst (wait_for_completion env_clock_set_back 5 "stl_1" (Some 0%Z)
         (init_state demo_client)) =
    Return (record_with_status "completed") /\
  exchanges (snd (wait_for_completion env_clock_set_back 5 "stl_1" (Some 0%Z)
                    (init_state demo_client))) = 1.
Proof. split; vm_compute; reflexivity. Qed.

(** The loop condition is evaluated on floats: where the exact difference
    of the readings is below the limit but rounds to it, the wait times out
    without a poll. *)
Example wait_for_completion_rounded_difference :
  (now_at env_rounds_to_limit 1 - now_at env_rounds_to_limit 0 < 120)%Q /\
  match float_sub (now_at env_rounds_to_limit 1)
          (now_at env_rounds_to_limit 0) with
  | Finite v => (v == 120)%Q
  | _ => False
  end /\
  fst (wait_for_completion env_rounds_to_limit 5 "stl_1" None
         (init_state demo_client)) =
    Raise (Exception_ "Settlement timed out") /\
  exchanges (snd (wait_for_completion env_rounds_to_limit 5 "stl_1" None
                    (init_state demo_client))) = 0.
Proof.
  split; [reflexivity|]. split; [vm_compute; reflexivity|].
  split; vm_compute; reflexivity.
Qed.

(** A 300 response is not 2xx, yet no [HTTPError] is raised: the body is
    returned. *)
Lemma get_quote_returns_on_300 :
  reply_at env_multiple_choices 0 = Some multiple_choices /\
  ~ (200 <= status_code multiple_choices < 300)%Z /\
  fst (get_quote env_multiple_choices "pix" 100 "USD"
         (init_state demo_client)) =
    Return (JObj ∅).
Proof.
  split; [reflexivity|]. split; [simpl; lia|]. reflexivity.
Qed.


(** ** The polling loop under arbitrary replies *)

Section AnyReply.

Variable E : env.
Variable settlement_id : string.

Lemma call_stops (q : request) (s : state) : fst (call E q s) <> OutOfFuel.
Proof.
  unfold call, bind, send, raise_for_status, response_json, raise, ret.
  destruct (reply_at E (exchanges s)) as [resp|]; simpl; [|discriminate].
  destruct (is_http_error (status_code resp)); simpl; [discriminate|].
  destruct (body resp); discriminate.
Qed.

Lemma call_exchange_error (q : request) (s : state) (e : exn) :
  exchange_error (reply_at E (exchanges s)) = Some e ->
  call E q s = (Raise e, served (log (EvHttp q) s)).
Proof.
  intros He. rewrite (surjective_pairing (call E q s)), call_state. f_equal.
  unfold exchange_error in He.
  destruct (reply_at E (exchanges s)) as [r|] eqn:Hr.
  - destruct (is_http_error (status_code r)) eqn:Herr.
    + inversion He; subst. exact (call_http_error E q s r Hr Herr).
    + rewrite (call_passed E q s r Hr Herr).
      destruct (body r); [discriminate | congruence].
  - inversion He; subst. exact (call_transport_failure E q s Hr).
Qed.

(** The poll itself fails: the loop ends with that exception, unslept. *)
Lemma poll_loop_exchange_error (fuel : nat) (t0 : Q) (mw : Z) (s : state)
    (e : exn) :
  before_deadline E t0 mw (clock_reads s) ->
  exchange_error (reply_at E (exchanges s)) = Some e ->
  poll_loop E (S fuel) settlement_id t0 mw s =
    (Raise e, polled settlement_id (tick s)).
Proof.
  intros Hd He. unfold before_deadline in Hd.
  cbn [poll_loop]. unfold bind at 1, time_time. rewrite Hd.
  unfold bind at 1. rewrite get_settlement_status_call.
  rewrite (call_exchange_error _ (tick s) e He). reflexivity.
Qed.

(** The poll is answered with a body that has no status entry. *)
Lemma poll_loop_missing_status (fuel : nat) (t0 : Q) (mw : Z) (s : state)
    (j : json) :
  before_deadline E t0 mw (clock_reads s) ->
  answers E (exchanges s) j ->
  status_of j = None ->
  poll_loop E (S fuel) settlement_id t0 mw s =
    (Raise (missing_status_error j), polled settlement_id (tick s)).
Proof.
  intros Hd Ha Hs. unfold before_deadline in Hd.
  cbn [poll_loop]. unfold bind at 1, time_time. rewrite Hd.
  unfold bind at 1. rewrite get_settlement_status_call.
  rewrite (call_answered E _ (tick s) j Ha).
  unfold bind, subscript, raise.
  destruct j; simpl in Hs; try reflexivity. rewrite Hs. reflexivity.
Qed.

(** One evaluation of the loop condition: the deadline has passed and the
    loop ends in the timeout; or a poll is made and ends the loop; or a poll
    is made, the loop sleeps and goes round. *)
Lemma poll_loop_step (fuel : nat) (t0 : Q) (mw : Z) (s : state) :
  (~ before_deadline E t0 mw (clock_reads s) /\
   poll_loop E (S fuel) settlement_id t0 mw s =
     (Raise (Exception_ "Settlement timed out"), tick s)) \/
  (before_deadline E t0 mw (clock_reads s) /\
   exists o, o <> OutOfFuel /\
     poll_loop E (S fuel) settlement_id t0 mw s =
       (o, polled settlement_id (tick s))) \/
  (before_deadline E t0 mw (clock_reads s) /\
   poll_loop E (S fuel) settlement_id t0 mw s =
     poll_loop E fuel settlement_id t0 mw (after_rounds 1 settlement_id s)).
Proof.
  destruct (float_lt_int (float_sub (now_at E (clock_reads s)) t0) mw) eqn:Hg.
  - right. assert (Hd : before_deadline E t0 mw (clock_reads s))
      by exact Hg.
    remember (poll_loop E (S fuel) settlement_id t0 mw s) as R eqn:HR.
    cbn [poll_loop] in HR. unfold bind at 1, time_time in HR. rewrite Hg in HR.
    unfold bind at 1 in HR. rewrite get_settlement_status_call in HR.
    pose proof (call_state E (status_request (self (tick s)) settlement_id)
                  (tick s)) as Hst.
    pose proof (call_stops (status_request (self (tick s)) settlement_id)
                  (tick s)) as Hne.
    destruct (call E _ (tick s)) as [[j|e|] s1]; simpl in Hst, Hne; subst s1;
      [| left; split; [exact Hd|]; exists (Raise e); split;
         [discriminate | exact HR]
       | congruence].
    unfold bind, subscript, dict_get, ret, raise, time_sleep in HR.
    destruct j;
      try (left; split; [exact Hd|]; exists (Raise TypeError); split;
           [discriminate | exact HR]).
    destruct (o !! "status") as [v|];
      [| left; split; [exact Hd|]; exists (Raise (KeyError "status")); split;
         [discriminate | exact HR]].
    destruct (py_eq_str v "completed");
      [left; split; [exact Hd|]; exists (Return (JObj o)); split;
       [discriminate | exact HR]|].
    destruct (py_eq_str v "failed");
      [left; split; [exact Hd|]; eexists; split; [|exact HR]; discriminate|].
    right. split; [exact Hd|]. rewrite HR, <- after_rounds_1. reflexivity.
  - left. assert (Hd : ~ before_deadline E t0 mw (clock_reads s))
      by (unfold before_deadline; rewrite Hg; discriminate).
    split; [exact Hd|]. apply poll_loop_deadline. exact Hd.
Qed.

End AnyReply.

Section RunShape.

Variable E : env.
Variable settlement_id : string.

Lemma poll_events_S (c : client) (k : nat) (last : bool) :
  poll_events c settlement_id (S k) last =
  ([EvHttp (status_request c settlement_id); EvSleep 2] ++
   poll_events c settlement_id k last)%list.
Proof. unfold poll_events. simpl. reflexivity. Qed.

(** Whatever the replies and however the loop ends, it has made [k] rounds
    of poll-then-sleep and possibly one last poll. *)
Lemma poll_loop_shape (fuel : nat) (t0 : Q) (mw : Z) (s : state) :
  exists k last,
    trace (snd (poll_loop E fuel settlement_id t0 mw s)) =
      (trace s ++ poll_events (self s) settlement_id k last)%list /\
    exchanges (snd (poll_loop E fuel settlement_id t0 mw s)) =
      exchanges s + k + (if last then 1 else 0) /\
    k <= fuel /\
    (forall r, fst (poll_loop E fuel settlement_id t0 mw s) = Return r ->
       last = true) /\
    (fst (poll_loop E fuel settlement_id t0 mw s) <> OutOfFuel ->
       clock_reads (snd (poll_loop E fuel settlement_id t0 mw s)) =
         clock_reads s + k + 1).
Proof.
  revert s. induction fuel as [|fuel IH]; intros s.
  - exists 0, false. simpl. rewrite app_nil_r.
    repeat split; try lia; [discriminate | congruence].
  - destruct (poll_loop_step E settlement_id fuel t0 mw s)
      as [(_ & ->)|[(_ & o & Ho & ->)|(_ & ->)]].
    + exists 0, false. simpl. rewrite app_nil_r.
      repeat split; try lia. discriminate.
    + exists 0, true. simpl. repeat split; try lia.
    + destruct (IH (after_rounds 1 settlement_id s))
        as (k & last & Htr & Hex & Hk & Hret & Hclk).
      exists (S k), last. rewrite Htr, Hex, poll_events_S.
      split; [simpl; rewrite <- app_assoc; reflexivity|].
      split; [simpl; lia|]. split; [lia|]. split; [exact Hret|].
      intros Hne. rewrite (Hclk Hne). simpl. lia.
Qed.

(** Once a check finds the deadline passed, the loop has ended, whatever the
    service answered before; at most one poll per earlier check was made. *)
Lemma poll_loop_terminates (n : nat) (t0 : Q) (mw : Z) :
  forall fuel s,
    ~ before_deadline E t0 mw (clock_reads s + n) ->
    n < fuel ->
    fst (poll_loop E fuel settlement_id t0 mw s) <> OutOfFuel /\
    exchanges (snd (poll_loop E fuel settlement_id t0 mw s)) <=
      exchanges s + n.
Proof.
  induction n as [|n IH]; intros fuel s Hend Hfuel;
    (destruct fuel as [|fuel]; [lia|]);
    destruct (poll_loop_step E settlement_id fuel t0 mw s)
      as [(_ & ->)|[(Hd & o & Ho & ->)|(Hd & ->)]]; simpl;
    try (split; [discriminate || assumption | lia]).
  - rewrite Nat.add_0_r in Hend. contradiction.
  - rewrite Nat.add_0_r in Hend. contradiction.
  - destruct (IH fuel (after_rounds 1 settlement_id s)) as (H1 & H2);
      [| lia | split; [exact H1 | simpl in H2; lia]].
    simpl. replace (clock_reads s + 1 + n) with (clock_reads s + S n) by lia.
    exact Hend.
Qed.

End RunShape.

Section WaitingAnyReply.

Variable E : env.
Variable settlement_id : string.

(** X1: once a check of the loop condition finds the deadline passed,
    [wait_for_completion] has ended, in a return or an exception, whatever
    the service answered; it has issued at most one request per earlier
    check. *)
Theorem wait_for_completion_ends_once_deadline_passes
    (mw : option Z) (s : state) (n fuel : nat) :
  ~ before_deadline E (now_at E (clock_reads s)) (default 120%Z mw)
      (S (clock_reads s) + n) ->
  n < fuel ->
  fst (wait_for_completion E fuel settlement_id mw s) <> OutOfFuel /\
  exchanges (snd (wait_for_completion E fuel settlement_id mw s)) <=
    exchanges s + n.
Proof.
  intros Hend Hfuel. rewrite wait_for_completion_unfold.
  exact (poll_loop_terminates E settlement_id n _ _ fuel (tick s) Hend Hfuel).
Qed.

(** X2: whatever the replies, [wait_for_completion] only ever issues [GET]
    requests for the one settlement and sleeps of two seconds, in strict
    alternation starting with a request: [k] rounds of poll-then-sleep and
    possibly a last poll. A record is returned only straight after a poll,
    and a run that ended has read the clock [k + 2] times. *)
Theorem wait_for_completion_alternates_polls_and_sleeps
    (fuel : nat) (mw : option Z) (s : state) :
  exists k last,
    trace (snd (wait_for_completion E fuel settlement_id mw s)) =
      (trace s ++ poll_events (self s) settlement_id k last)%list /\
    exchanges (snd (wait_for_completion E fuel settlement_id mw s)) =
      exchanges s + k + (if last then 1 else 0) /\
    k <= fuel /\
    (forall r, fst (wait_for_completion E fuel settlement_id mw s) = Return r ->
       last = true) /\
    (fst (wait_for_completion E fuel settlement_id mw s) <> OutOfFuel ->
       clock_reads (snd (wait_for_completion E fuel settlement_id mw s)) =
         clock_reads s + k + 2).
Proof.
  rewrite wait_for_completion_unfold.
  destruct (poll_loop_shape E settlement_id fuel
              (now_at E (clock_reads s)) (default 120%Z mw) (tick s))
    as (k & last & Htr & Hex & Hk & Hret & Hclk).
  exists k, last. repeat split; try assumption.
  intros Hne. rewrite (Hclk Hne). simpl. lia.
Qed.

(** X3: a poll that fails (no response, a 4xx or 5xx status, a body that is
    not JSON) ends [wait_for_completion] at once with that exception: the
    poll is not repeated and nothing is slept after it. *)
Theorem wait_for_completion_poll_error
    (mw : option Z) (s : state) (n fuel : nat) (e : exn) :
  (forall i, i <= n ->
     before_deadline E (now_at E (clock_reads s)) (default 120%Z mw)
       (S (clock_reads s) + i)) ->
  (forall i, i < n ->
     exists j, answers E (exchanges s + i) j /\ nonterminal j) ->
  exchange_error (reply_at E (exchanges s + n)) = Some e ->
  n < fuel ->
  fst (wait_for_completion E fuel settlement_id mw s) = Raise e /\
  exchanges (snd (wait_for_completion E fuel settlement_id mw s)) =
    exchanges s + n + 1 /\
  trace (snd (wait_for_completion E fuel settlement_id mw s)) =
    (trace s ++ poll_events (self s) settlement_id n true)%list.
Proof.
  intros Hd Hp He Hfuel. rewrite wait_for_completion_unfold.
  replace fuel with (n + S (fuel - S n)) by lia.
  rewrite poll_loop_rounds; [| intros i Hi; apply Hd; lia | exact Hp].
  rewrite (poll_loop_exchange_error E settlement_id _ _ _ _ e).
  - simpl. repeat split; [lia|].
    unfold poll_events. rewrite <- app_assoc. reflexivity.
  - simpl. replace (S (clock_reads s + n)) with (S (clock_reads s) + n) by lia.
    apply Hd; lia.
  - exact He.
Qed.

(** X4: a poll answered with a body that has no ["status"] entry ends
    [wait_for_completion] with [KeyError] when the body is an object and with
    [TypeError] when it is not; the loop neither sleeps nor polls again: the
    events are the [n] earlier rounds and this one poll. *)
Theorem wait_for_completion_missing_status
    (mw : option Z) (s : state) (n fuel : nat) (j : json) :
  (forall i, i <= n ->
     before_deadline E (now_at E (clock_reads s)) (default 120%Z mw)
       (S (clock_reads s) + i)) ->
  (forall i, i < n ->
     exists j', answers E (exchanges s + i) j' /\ nonterminal j') ->
  answers E (exchanges s + n) j ->
  status_of j = None ->
  n < fuel ->
  fst (wait_for_completion E fuel settlement_id mw s) =
    Raise (match j with JObj _ => KeyError "status" | _ => TypeError end) /\
  exchanges (snd (wait_for_completion E fuel settlement_id mw s)) =
    exchanges s + n + 1 /\
  trace (snd (wait_for_completion E fuel settlement_id mw s)) =
    (trace s ++ poll_events (self s) settlement_id n true)%list.
Proof.
  intros Hd Hp Ha Hs Hfuel. rewrite wait_for_completion_unfold.
  replace fuel with (n + S (fuel - S n)) by lia.
  rewrite poll_loop_rounds; [| intros i Hi; apply Hd; lia | exact Hp].
  rewrite (poll_loop_missing_status E settlement_id _ _ _ _ j).
  - simpl. split; [reflexivity|]. split; [lia|].
    unfold poll_events. rewrite <- app_assoc. reflexivity.
  - simpl. replace (S (clock_reads s + n)) with (S (clock_reads s) + n) by lia.
    apply Hd; lia.
  - exact Ha.
  - exact Hs.
Qed.

End WaitingAnyReply.

(** ** Failures of a single operation *)

Section OperationFailures.

Variable E : env.

Lemma call_fails_with (q : request) (s : state) (e : exn) :
  exchange_error (reply_at E (exchanges s)) = Some e ->
  fails_with e (call E q) s.
Proof.
  intros He. unfold fails_with.
  rewrite (call_exchange_error E q s e He). split; reflexivity.
Qed.

(** X5: when the transport delivers no response, each operation raises the
    transport's exception after its one request: nothing is retried and
    nothing is returned. *)
Theorem operations_transport_failure (s : state) :
  reply_at E (exchanges s) = None ->
  (forall corridor amount currency,
     fails_with ConnectionError (get_quote E corridor amount currency) s) /\
  (forall corridor amount currency recipient metadata,
     fails_with ConnectionError
       (acquire_token E corridor amount currency recipient metadata) s) /\
  (forall token key, fails_with ConnectionError (settle E token key) s) /\
  (forall settlement_id,
     fails_with ConnectionError (get_settlement_status E settlement_id) s).
Proof.
  intros Hr.
  assert (He : exchange_error (reply_at E (exchanges s)) = Some ConnectionError)
    by (rewrite Hr; reflexivity).
  split; [|split; [|split]]; intros.
  - exact (call_fails_with
             (post_request (self s) "/v1/ucp/quote"
                (quote_payload corridor amount currency)) s _ He).
  - exact (call_fails_with
             (post_request (self s) "/v1/ucp/tokens"
                (token_payload corridor amount currency recipient metadata))
             s _ He).
  - exact (call_fails_with
             (post_request (self s) "/v1/ucp/settle"
                (settle_payload token key)) s _ He).
  - exact (call_fails_with (status_request (self s) settlement_id) s _ He).
Qed.

(** X6: a response whose status is outside 400..599 but whose body is not
    JSON makes each operation raise the decoding error of [response.json()],
    after its one request. *)
Theorem operations_undecodable_body (s : state) (r : response) :
  reply_at E (exchanges s) = Some r ->
  is_http_error (status_code r) = false ->
  body r = None ->
  (forall corridor amount currency,
     fails_with JSONDecodeError (get_quote E corridor amount currency) s) /\
  (forall corridor amount currency recipient metadata,
     fails_with JSONDecodeError
       (acquire_token E corridor amount currency recipient metadata) s) /\
  (forall token key, fails_with JSONDecodeError (settle E token key) s) /\
  (forall settlement_id,
     fails_with JSONDecodeError (get_settlement_status E settlement_id) s).
Proof.
  intros Hr Hok Hb.
  assert (He : exchange_error (reply_at E (exchanges s)) = Some JSONDecodeError)
    by (rewrite Hr; simpl; rewrite Hok, Hb; reflexivity).
  split; [|split; [|split]]; intros.
  - exact (call_fails_with
             (post_request (self s) "/v1/ucp/quote"
                (quote_payload corridor amount currency)) s _ He).
  - exact (call_fails_with
             (post_request (self s) "/v1/ucp/tokens"
                (token_payload corridor amount currency recipient metadata))
             s _ He).
  - exact (call_fails_with
             (post_request (self s) "/v1/ucp/settle"
                (settle_payload token key)) s _ He).
  - exact (call_fails_with (status_request (self s) settlement_id) s _ He).
Qed.

End OperationFailures.

(** ** What the requests of a client carry *)

Section Requests.

Variable E : env.

Lemma new_events_call (q : request) (s : state) :
  new_events s (snd (call E q s)) = [EvHttp q].
Proof.
  rewrite call_state. unfold new_events. simpl.
  rewrite drop_app_length. reflexivity.
Qed.

Lemma poll_events_requests (c : client) (settlement_id : string)
    (k : nat) (last : bool) (q : request) :
  EvHttp q ∈ poll_events c settlement_id k last ->
  q = status_request c settlement_id.
Proof.
  induction k as [|k IH].
  - unfold poll_events; simpl. destruct last; intros H.
    + apply list_elem_of_singleton in H. congruence.
    + apply elem_of_nil in H. contradiction.
  - rewrite poll_events_S. intros H. apply elem_of_app in H.
    destruct H as [H|H]; [|exact (IH H)].
    apply elem_of_cons in H. destruct H as [H|H]; [congruence|].
    apply list_elem_of_singleton in H. discriminate.
Qed.

Lemma from_client_post (key : string) (url : option string)
    (path : string) (payload : dict) :
  from_client key url (post_request (__init__ key url) path payload).
Proof.
  unfold from_client, post_request, __init__; simpl.
  split; [eexists; reflexivity|]. repeat split; by simplify_map_eq.
Qed.

Lemma from_client_status (key : string) (url : option string)
    (settlement_id : string) :
  from_client key url (status_request (__init__ key url) settlement_id).
Proof.
  unfold from_client, status_request, __init__; simpl.
  split; [eexists; reflexivity|]. repeat split; by simplify_map_eq.
Qed.

(** X7: every request a client issues, in any of its five operations and
    whatever the replies, is addressed under the base URL given at
    construction and carries the bearer authorization built from the API
    key, the JSON content type and the agent header. *)
Theorem requests_carry_client_headers
    (key : string) (url : option string) (s : state) :
  self s = __init__ key url ->
  (forall corridor amount currency,
     sends_only (from_client key url) s
       (snd (get_quote E corridor amount currency s))) /\
  (forall corridor amount currency recipient metadata,
     sends_only (from_client key url) s
       (snd (acquire_token E corridor amount currency recipient metadata s))) /\
  (forall token idem,
     sends_only (from_client key url) s (snd (settle E token idem s))) /\
  (forall settlement_id,
     sends_only (from_client key url) s
       (snd (get_settlement_status E settlement_id s))) /\
  (forall fuel settlement_id mw,
     sends_only (from_client key url) s
       (snd (wait_for_completion E fuel settlement_id mw s))).
Proof.
  intros Hself. unfold sends_only.
  split; [|split; [|split; [|split]]]; intros.
  - rewrite get_quote_call, new_events_call in H.
    apply list_elem_of_singleton in H. inversion H; subst q.
    rewrite Hself. apply from_client_post.
  - rewrite acquire_token_call, new_events_call in H.
    apply list_elem_of_singleton in H. inversion H; subst q.
    rewrite Hself. apply from_client_post.
  - rewrite settle_call, new_events_call in H.
    apply list_elem_of_singleton in H. inversion H; subst q.
    rewrite Hself. apply from_client_post.
  - rewrite get_settlement_status_call, new_events_call in H.
    apply list_elem_of_singleton in H. inversion H; subst q.
    rewrite Hself. apply from_client_status.
  - rewrite wait_for_completion_unfold in H.
    destruct (poll_loop_shape E settlement_id fuel
                (now_at E (clock_reads s)) (default 120%Z mw) (tick s))
      as (k & last & Htr & _).
    unfold new_events in H. rewrite Htr in H. simpl in H.
    rewrite drop_app_length in H.
    apply poll_events_requests in H. subst q.
    rewrite Hself. apply from_client_status.
Qed.

End Requests.

(** ** The objects built: their exact key sets, and what they determine *)

Section Objects.

Variable E : env.

Lemma supplied_truthy (x : option string) (t : string) :
  supplied x = Some t -> x = Some t /\ truthy_str t = true.
Proof.
  unfold supplied. destruct x as [u|]; [|discriminate].
  destruct (truthy_str u) eqn:Hu; [|discriminate].
  intros H; inversion H; subst. auto.
Qed.

Lemma create_pix_recipient_supplied pix_key pix_key_type name opt :
  create_pix_recipient pix_key pix_key_type name opt =
  create_pix_recipient pix_key pix_key_type name (supplied opt).
Proof.
  unfold create_pix_recipient, supplied.
  destruct opt as [t|]; [|reflexivity].
  destruct (truthy_str t) eqn:Ht; [rewrite Ht|]; reflexivity.
Qed.

Lemma create_spei_recipient_supplied clabe name opt :
  create_spei_recipient clabe name opt =
  create_spei_recipient clabe name (supplied opt).
Proof.
  unfold create_spei_recipient, supplied.
  destruct opt as [t|]; [|reflexivity].
  destruct (truthy_str t) eqn:Ht; [rewrite Ht|]; reflexivity.
Qed.

Lemma tax_id_supplied pix_key pix_key_type name opt :
  create_pix_recipient pix_key pix_key_type name opt !! "tax_id" =
  JStr <$> supplied opt.
Proof.
  rewrite create_pix_recipient_tax_id. unfold supplied.
  destruct opt as [t|]; [destruct (truthy_str t)|]; reflexivity.
Qed.

Lemma rfc_supplied clabe name opt :
  create_spei_recipient clabe name opt !! "rfc" = JStr <$> supplied opt.
Proof.
  rewrite create_spei_recipient_rfc. unfold supplied.
  destruct opt as [t|]; [destruct (truthy_str t)|]; reflexivity.
Qed.

(** X8: a recipient object has exactly the keys of its rail, plus the
    optional one when that was supplied non-empty: nothing else is ever put
    into it. *)
Theorem recipient_key_sets
    (pix_key pix_key_type clabe name : string) (opt : option string) :
  dom (create_pix_recipient pix_key pix_key_type name opt) =
    ({["type"; "pix_key"; "pix_key_type"; "name"]} ∪
     (match supplied opt with Some _ => {["tax_id"]} | None => ∅ end) : gset string) /\
  dom (create_spei_recipient clabe name opt) =
    ({["type"; "clabe"; "name"]} ∪
     (match supplied opt with Some _ => {["rfc"]} | None => ∅ end) : gset string).
Proof.
  unfold create_pix_recipient, create_spei_recipient, supplied.
  destruct opt as [t|]; [destruct (truthy_str t)|];
    split; rewrite ?dom_insert_L, dom_singleton_L; set_solver.
Qed.

(** X9: the arguments can be read back from a recipient object: two Pix
    recipients are equal exactly when key, key type, name and the supplied
    tax id agree, likewise for SPEI, and a Pix recipient is never a SPEI
    recipient. *)
Theorem recipient_constructors_injective
    (k k' kt kt' n n' c c' : string) (o o' : option string) :
  (create_pix_recipient k kt n o = create_pix_recipient k' kt' n' o' <->
   k = k' /\ kt = kt' /\ n = n' /\ supplied o = supplied o') /\
  (create_spei_recipient c n o = create_spei_recipient c' n' o' <->
   c = c' /\ n = n' /\ supplied o = supplied o') /\
  create_pix_recipient k kt n o <> create_spei_recipient c n' o'.
Proof.
  split; [|split].
  - split.
    + intros Heq.
      destruct (create_pix_recipient_fields k kt n o) as (_ & P2 & P3 & P4).
      destruct (create_pix_recipient_fields k' kt' n' o') as (_ & Q2 & Q3 & Q4).
      pose proof (tax_id_supplied k kt n o) as P5.
      pose proof (tax_id_supplied k' kt' n' o') as Q5.
      rewrite Heq in P2, P3, P4, P5.
      rewrite P2 in Q2. rewrite P3 in Q3. rewrite P4 in Q4. rewrite P5 in Q5.
      repeat split; try congruence.
      destruct (supplied o), (supplied o'); simpl in Q5; congruence.
    + intros (-> & -> & -> & Ho).
      rewrite create_pix_recipient_supplied, Ho,
        <- create_pix_recipient_supplied. reflexivity.
  - split.
    + intros Heq.
      destruct (create_spei_recipient_fields c n o) as (_ & P2 & P3).
      destruct (create_spei_recipient_fields c' n' o') as (_ & Q2 & Q3).
      pose proof (rfc_supplied c n o) as P5.
      pose proof (rfc_supplied c' n' o') as Q5.
      rewrite Heq in P2, P3, P5.
      rewrite P2 in Q2. rewrite P3 in Q3. rewrite P5 in Q5.
      repeat split; try congruence.
      destruct (supplied o), (supplied o'); simpl in Q5; congruence.
    + intros (-> & -> & Ho).
      rewrite create_spei_recipient_supplied, Ho,
        <- create_spei_recipient_supplied. reflexivity.
  - intros Heq.
    destruct (create_pix_recipient_fields k kt n o) as (P1 & _).
    destruct (create_spei_recipient_fields c n' o') as (Q1 & _).
    rewrite Heq in P1. rewrite P1 in Q1. discriminate.
Qed.

(** X10: the body [get_quote] posts to [/v1/ucp/quote] holds the corridor,
    the amount and the currency as supplied and has no other key, whatever
    the service then answers. *)
Theorem get_quote_request
    (corridor : string) (amount : Q) (currency : string) (s : state) :
  exists payload : dict,
    trace (snd (get_quote E corridor amount currency s)) =
      (trace s ++
       [EvHttp (post_request (self s) "/v1/ucp/quote" payload)])%list /\
    payload !! "corridor" = Some (JStr corridor) /\
    payload !! "amount" = Some (JNum amount) /\
    payload !! "currency" = Some (JStr currency) /\
    dom payload = ({["corridor"; "amount"; "currency"]} : gset string).
Proof.
  exists (quote_payload corridor amount currency).
  split; [rewrite get_quote_call, call_state; reflexivity|].
  unfold quote_payload.
  do 3 (split; [by simplify_map_eq|]).
  rewrite !dom_insert_L, dom_singleton_L. set_solver.
Qed.

(** X11: the bodies of [settle] and [acquire_token] have no key beyond the
    mandatory ones and the optional one when it was supplied non-empty. *)
Theorem payload_key_sets
    (token : string) (key : option string)
    (corridor : string) (amount : Q) (currency : string)
    (recipient : dict) (metadata : option dict) (s : state) :
  (exists payload : dict,
     trace (snd (settle E token key s)) =
       (trace s ++
        [EvHttp (post_request (self s) "/v1/ucp/settle" payload)])%list /\
     dom payload =
       ({["token"]} ∪
        (match supplied key with
         | Some _ => {["idempotency_key"]}
         | None => ∅
         end) : gset string)) /\
  (exists payload : dict,
     trace (snd (acquire_token E corridor amount currency recipient metadata s))
       = (trace s ++
          [EvHttp (post_request (self s) "/v1/ucp/tokens" payload)])%list /\
     dom payload =
       ({["corridor"; "amount"; "currency"; "recipient"]} ∪
        (match metadata with
         | Some md => if truthy_dict md then {["metadata"]} else ∅
         | None => ∅
         end) : gset string)).
Proof.
  split.
  - exists (settle_payload token key).
    split; [rewrite settle_call, call_state; reflexivity|].
    unfold settle_payload, supplied.
    destruct key as [t|]; [destruct (truthy_str t)|];
      rewrite ?dom_insert_L, dom_singleton_L; set_solver.
  - exists (token_payload corridor amount currency recipient metadata).
    split; [rewrite acquire_token_call, call_state; reflexivity|].
    unfold token_payload.
    destruct metadata as [md|]; [destruct (truthy_dict md)|];
      rewrite ?dom_insert_L, dom_singleton_L; set_solver.
Qed.

End Objects.

(** ** What a returned record tells about the replies *)

Section Returned.

Variable E : env.

Lemma call_return_answers (q : request) (s s' : state) (j : json) :
  call E q s = (Return j, s') -> answers E (exchanges s) j.
Proof.
  unfold call, bind, send, raise_for_status, response_json, raise, ret.
  destruct (reply_at E (exchanges s)) as [resp|] eqn:Hr; [|discriminate].
  destruct (is_http_error (status_code resp)) eqn:Herr; [discriminate|].
  destruct (body resp) as [b|] eqn:Hb; [|discriminate].
  intros H. inversion H; subst. exists resp. auto.
Qed.

(** A record the loop returns is the answer to one of its polls. *)
Lemma poll_loop_return_answers (settlement_id : string) (fuel : nat)
    (t0 : Q) (mw : Z) (s s' : state) (r : json) :
  poll_loop E fuel settlement_id t0 mw s = (Return r, s') ->
  exists k, k < fuel /\ answers E (exchanges s + k) r.
Proof.
  revert s. induction fuel as [|fuel IH]; intros s H; [discriminate|].
  cbn [poll_loop] in H. unfold bind at 1, time_time in H.
  destruct (float_lt_int _ _); [|discriminate].
  unfold bind at 1 in H. rewrite get_settlement_status_call in H.
  pose proof (call_state E (status_request (self (tick s)) settlement_id)
                (tick s)) as Hst.
  destruct (call E _ (tick s)) as [[j|e|] s1] eqn:Hc; try discriminate.
  apply call_return_answers in Hc. simpl in Hst, Hc. subst s1.
  unfold bind, subscript, dict_get, ret, raise, time_sleep in H.
  destruct j; try discriminate.
  destruct (o !! "status") as [v|]; try discriminate.
  destruct (py_eq_str v "completed").
  - inversion H; subst. exists 0. rewrite Nat.add_0_r.
    split; [lia | exact Hc].
  - destruct (py_eq_str v "failed"); [discriminate|].
    apply IH in H. destruct H as (k & Hlt & Hk). exists (S k).
    simpl in Hk. replace (exchanges s + S k) with (S (exchanges s) + k) by lia.
    split; [lia | exact Hk].
Qed.

End Returned.

(** ** Running the script *)

Section ScriptRuns.

Variable E : env.
Variable dict_slice_error : exn.

Local Open Scope script_scope.

Lemma run_print {B} (line : string) (k : unit -> P B) (w : world) :
  bindP (print line) k w = k tt (printed [line] (st w) w).
Proof. reflexivity. Qed.

Lemma run_lift_return {A B} (m : M A) (k : A -> P B) (w : world)
    (a : A) (s' : state) :
  m (st w) = (Return a, s') ->
  bindP (lift m) k w = k a (printed [] s' w).
Proof.
  intros H. unfold bindP, lift, printed. rewrite H, app_nil_r. reflexivity.
Qed.

Lemma run_lift_raise {A B} (m : M A) (k : A -> P B) (w : world)
    (e : exn) (s' : state) :
  m (st w) = (Raise e, s') ->
  bindP (lift m) k w = (Raise e, printed [] s' w).
Proof.
  intros H. unfold bindP, lift, printed. rewrite H, app_nil_r. reflexivity.
Qed.

Lemma run_lift_out_of_fuel {A B} (m : M A) (k : A -> P B) (w : world)
    (s' : state) :
  m (st w) = (OutOfFuel, s') ->
  bindP (lift m) k w = (OutOfFuel, printed [] s' w).
Proof.
  intros H. unfold bindP, lift, printed. rewrite H, app_nil_r. reflexivity.
Qed.

Lemma printed_printed (l1 l2 : list string) (s1 s2 : state) (w : world) :
  printed l2 s2 (printed l1 s1 w) = printed (l1 ++ l2) s2 w.
Proof. unfold printed; simpl. rewrite <- app_assoc. reflexivity. Qed.




(** Step 1 when the quote request fails. *)
Lemma main_quote_failed (w : world) (e : exn) :
  exchange_error (reply_at E (exchanges (st w))) = Some e ->
  main_quote E w =
    (Raise e,
     printed ["1. Getting FX quote..."]
       (sent (quote_request (self (st w))) (st w)) w).
Proof.
  intros He. unfold main_quote. rewrite run_print.
  erewrite run_lift_raise;
    [| rewrite get_quote_call; apply (call_exchange_error E _ _ e); exact He].
  rewrite printed_printed. reflexivity.
Qed.




(** Step 2 when the token request fails. *)
Lemma main_token_failed (w : world) (e : exn) :
  exchange_error (reply_at E (exchanges (st w))) = Some e ->
  main_token E dict_slice_error w =
    (Raise e,
     printed ["2. Acquiring settlement token..."]
       (sent (token_request (self (st w))) (st w)) w).
Proof.
  intros He. unfold main_token. rewrite run_print.
  erewrite run_lift_raise;
    [| rewrite acquire_token_call; apply (call_exchange_error E _ _ e);
       exact He].
  rewrite printed_printed. reflexivity.
Qed.






(** X12: when the quote request fails (no response, a 4xx or 5xx status, an
    undecodable body) [main] raises that exception after this one request,
    having printed the title and the first step's heading only: no token is
    acquired and nothing is settled. *)
Theorem main_stops_at_failed_quote
    (fuel : nat) (environ : gmap string string) (e : exn) :
  exchange_error (reply_at E 0) = Some e ->
  fst (main E dict_slice_error fuel environ) = Raise e /\
  trace (st (snd (main E dict_slice_error fuel environ))) =
    [EvHttp (quote_request (main_client environ))] /\
  stdout (snd (main E dict_slice_error fuel environ)) =
    ["PayOS UCP Settlement Example (Python)" ++ LF; "1. Getting FX quote..."].
Proof.
  intros He.
  assert (Hrun : main E dict_slice_error fuel environ =
            (Raise e,
             {| st := sent (quote_request (main_client environ))
                        (init_state (main_client environ));
                stdout := ["PayOS UCP Settlement Example (Python)" ++ LF;
                           "1. Getting FX quote..."] |})).
  { unfold main, main_steps. rewrite run_print.
    unfold bindP at 1. erewrite main_quote_failed; [| exact He].
    reflexivity. }
  rewrite Hrun. split; [reflexivity | split; reflexivity].
Qed.




(** X16: the idempotency key [main] hands to [settle] is never dropped by
    the guard of [settle] (it is not empty), and it depends on the clock only
    through the whole second: two readings give the same key exactly when
    they truncate to the same integer. *)
Theorem order_key_per_second (t1 t2 : Q) (token : string) :
  settle_payload token (Some (order_key t1)) !! "idempotency_key" =
    Some (JStr (order_key t1)) /\
  (order_key t1 = order_key t2 <-> py_int t1 = py_int t2).
Proof.
  split.
  - rewrite settle_payload_idempotency_key.
    assert (Hne : truthy_str (order_key t1) = true)
      by (apply truthy_str_true; unfold order_key; simpl; discriminate).
    rewrite Hne. reflexivity.
  - split.
    + unfold order_key. simpl. intros H. injection H as H.
      exact (pretty_Z_inj _ _ H).
    + intros H. unfold order_key. rewrite H. reflexivity.
Qed.

Lemma quiet_bind {A B} (m : P A) (k : A -> P B) :
  quiet m -> (forall a, quiet (k a)) -> quiet (bindP m k).
Proof.
  intros Hm Hk w Hw. unfold bindP. specialize (Hm w Hw).
  destruct (m w) as [[a|e|] w1]; simpl in *; [|exact Hm|exact Hm].
  apply Hk. exact Hm.
Qed.

Lemma quiet_print (line : string) :
  line <> complete_banner -> quiet (print line).
Proof.
  intros Hne w Hw. unfold print; simpl. rewrite elem_of_app.
  intros [H|H]; [exact (Hw H)|].
  apply list_elem_of_singleton in H. congruence.
Qed.

Lemma quiet_lift {A} (m : M A) : quiet (lift m).
Proof.
  intros w Hw. unfold lift. destruct (m (st w)); simpl. exact Hw.
Qed.

Lemma quiet_retP {A} (a : A) : quiet (retP a).
Proof. intros w Hw. exact Hw. Qed.

Ltac quiet_steps :=
  repeat first
    [ apply quiet_retP
    | apply quiet_lift
    | apply quiet_print; unfold complete_banner; simpl; discriminate
    | apply quiet_bind; [| intros ? ] ].

Lemma quiet_main_quote : quiet (main_quote E).
Proof. unfold main_quote. quiet_steps. Qed.

Lemma quiet_main_token : quiet (main_token E dict_slice_error).
Proof. unfold main_token. quiet_steps. Qed.

Lemma quiet_main_settle (t : json) : quiet (main_settle E t).
Proof. unfold main_settle. quiet_steps. Qed.

Lemma adds_bind {A B} (a b : nat) (m : P A) (k : A -> P B) :
  adds_exchanges a m -> (forall x, adds_exchanges b (k x)) ->
  adds_exchanges (a + b) (bindP m k).
Proof.
  intros Hm Hk w y w' H. unfold bindP in H.
  destruct (m w) as [[x|e|] w1] eqn:Hmw; try discriminate.
  rewrite (Hk x w1 y w' H), (Hm w x w1 Hmw). lia.
Qed.

Lemma adds_print (line : string) : adds_exchanges 0 (print line).
Proof. intros w a w' H. inversion H; subst. simpl. lia. Qed.

Lemma adds_retP {A} (a : A) : adds_exchanges 0 (retP a).
Proof. intros w x w' H. inversion H; subst. lia. Qed.

Lemma adds_lift {A} (n : nat) (m : M A) :
  issues n m -> adds_exchanges n (lift m).
Proof.
  intros Hm w a w' H. unfold lift in H.
  destruct (m (st w)) as [o s1] eqn:Hms. inversion H; subst. simpl.
  exact (Hm _ _ _ Hms).
Qed.

Lemma issues_subscript (v : json) (k : string) : issues 0 (subscript v k).
Proof.
  intros s a s' H. unfold subscript in H.
  destruct v; try discriminate. destruct (o !! k); inversion H; subst. lia.
Qed.

Lemma issues_dict_get (v : json) (k : string) : issues 0 (dict_get v k).
Proof.
  intros s a s' H. unfold dict_get in H.
  destruct v; inversion H; subst. lia.
Qed.

Lemma issues_slice20 (v : json) : issues 0 (slice20 dict_slice_error v).
Proof.
  intros s a s' H. unfold slice20 in H.
  destruct v; inversion H; subst; lia.
Qed.

Lemma issues_time_time : issues 0 (time_time E).
Proof. intros s a s' H. inversion H; subst. simpl. lia. Qed.

Lemma issues_call (f : state -> request) :
  issues 1 (fun s => call E (f s) s).
Proof.
  intros s a s' H. pose proof (call_state E (f s) s) as Hs.
  rewrite H in Hs. simpl in Hs. subst s'. simpl. lia.
Qed.

Ltac adds_steps :=
  repeat first
    [ apply adds_retP
    | apply adds_print
    | apply adds_lift; first [ apply issues_subscript | apply issues_dict_get
                             | apply issues_slice20 | apply issues_time_time ]
    | apply (adds_bind 0 0); [| intros ? ] ].

Lemma adds_main_quote : adds_exchanges 1 (main_quote E).
Proof.
  unfold main_quote.
  apply (adds_bind 0 1); [apply adds_print|]. intros _.
  apply (adds_bind 1 0);
    [apply adds_lift;
     exact (issues_call (fun s => post_request (self s) "/v1/ucp/quote"
                                    (quote_payload "pix" 100 "USD")))|].
  intros quote. adds_steps.
Qed.

Lemma adds_main_token : adds_exchanges 1 (main_token E dict_slice_error).
Proof.
  unfold main_token.
  apply (adds_bind 0 1); [apply adds_print|]. intros _.
  apply (adds_bind 1 0);
    [apply adds_lift;
     exact (issues_call (fun s => token_request (self s)))|].
  intros token_response. adds_steps.
Qed.

Lemma adds_main_settle (t : json) : adds_exchanges 1 (main_settle E t).
Proof.
  unfold main_settle.
  apply (adds_bind 0 1); [apply adds_print|]. intros _.
  apply (adds_bind 0 1); [apply adds_lift, issues_subscript|]. intros token.
  apply (adds_bind 0 1); [apply adds_lift, issues_time_time|]. intros now.
  apply (adds_bind 1 0); [apply adds_lift|].
  - exact (issues_call
             (fun s => post_request (self s) "/v1/ucp/settle"
                         (match Some (order_key now) with
                          | Some k =>
                              if truthy_str k
                              then <["idempotency_key" := JStr k]>
                                     {["token" := token]}
                              else {["token" := token]}
                          | None => {["token" := token]}
                          end))).
  - intros settlement. adds_steps.
Qed.

Lemma subscript_state (v : json) (k : string) (s : state) :
  snd (subscript v k s) = s.
Proof.
  unfold subscript. destruct v; try reflexivity.
  destruct (o !! k); reflexivity.
Qed.

(** Step 4 prints the banner only after the wait has returned a record. *)
Lemma main_wait_banner (fuel : nat) (t z : json) (w : world) :
  complete_banner ∉ stdout w ->
  complete_banner ∈ stdout (snd (main_wait E fuel t z w)) ->
  exists id c s',
    wait_for_completion E fuel id None (st w) = (Return c, s').
Proof.
  intros Hw Hin. unfold main_wait in Hin. rewrite run_print in Hin.
  assert (Hq : complete_banner ∉
                 stdout (printed ["4. Waiting for settlement to complete..."]
                           (st w) w)).
  { unfold printed; simpl. rewrite elem_of_app. intros [H|H]; [exact (Hw H)|].
    apply list_elem_of_singleton in H. discriminate H. }
  pose proof (subscript_state z "id" (st w)) as Hst.
  destruct (subscript z "id" (st w)) as [[idv|e|] s1] eqn:Hid;
    simpl in Hst; subst s1.
  - erewrite run_lift_return in Hin by exact Hid.
    destruct (wait_for_completion E fuel (py_str E (Some idv)) None (st w))
      as [[c|e|] s2] eqn:Hwait.
    + eauto.
    + erewrite run_lift_raise in Hin by exact Hwait.
      exfalso. apply Hq. simpl in Hin. simpl. rewrite !app_nil_r in Hin.
      exact Hin.
    + erewrite run_lift_out_of_fuel in Hin by exact Hwait.
      exfalso. apply Hq. simpl in Hin. simpl. rewrite !app_nil_r in Hin.
      exact Hin.
  - erewrite run_lift_raise in Hin by exact Hid.
    exfalso. apply Hq. simpl in Hin. simpl. rewrite !app_nil_r in Hin.
    exact Hin.
  - erewrite run_lift_out_of_fuel in Hin by exact Hid.
    exfalso. apply Hq. simpl in Hin. simpl. rewrite !app_nil_r in Hin.
    exact Hin.
Qed.

(** X17: in every run of [main], whatever the service answers, the closing
    banner "Settlement complete!" is printed only if one of the polls (the
    fourth request or a later one) was answered with a record whose status
    is "completed". *)
Theorem main_announces_only_completed
    (fuel : nat) (environ : gmap string string) :
  complete_banner ∈ stdout (snd (main E dict_slice_error fuel environ)) ->
  exists k c,
    answers E (3 + k) c /\ status_of c = Some (JStr "completed").
Proof.
  unfold main, main_steps. rewrite run_print.
  set (w0 := printed _ _ _).
  assert (H0 : complete_banner ∉ stdout w0).
  { unfold w0, printed; simpl. intros H.
    apply list_elem_of_singleton in H. discriminate H. }
  assert (X0 : exchanges (st w0) = 0) by reflexivity.
  unfold bindP at 1.
  pose proof (quiet_main_quote w0 H0) as H1.
  pose proof (adds_main_quote w0) as X1.
  destruct (main_quote E w0) as [[q|e|] w1]; simpl in H1;
    [| intros H; contradiction | intros H; contradiction].
  specialize (X1 q w1 eq_refl).
  unfold bindP at 1.
  pose proof (quiet_main_token w1 H1) as H2.
  pose proof (adds_main_token w1) as X2.
  destruct (main_token E dict_slice_error w1) as [[t|e|] w2]; simpl in H2;
    [| intros H; contradiction | intros H; contradiction].
  specialize (X2 t w2 eq_refl).
  unfold bindP at 1.
  pose proof (quiet_main_settle t w2 H2) as H3.
  pose proof (adds_main_settle t w2) as X3.
  destruct (main_settle E t w2) as [[z|e|] w3]; simpl in H3;
    [| intros H; contradiction | intros H; contradiction].
  specialize (X3 z w3 eq_refl).
  intros Hin.
  destruct (main_wait_banner fuel t z w3 H3 Hin) as (id & c & s' & Hwait).
  rewrite wait_for_completion_unfold in Hwait.
  destruct (poll_loop_return_answers E _ _ _ _ _ _ _ Hwait) as (k & _ & Hk).
  exists k, c. split.
  - simpl in Hk. replace (3 + k) with (exchanges (st w3) + k) by lia.
    exact Hk.
  - exact (poll_loop_returns_completed E _ _ _ _ _ _ _ Hwait).
Qed.

End ScriptRuns.

Section ReturnedRecord.

Variable E : env.

(** X18: a record [wait_for_completion] returns is the decoded body of one
    of the responses to its polls, handed back as received, and its status
    is "completed". *)
Theorem wait_for_completion_returns_a_poll_answer
    (fuel : nat) (settlement_id : string) (mw : option Z)
    (s : state) (r : json) :
  fst (wait_for_completion E fuel settlement_id mw s) = Return r ->
  exists k, k < fuel /\ answers E (exchanges s + k) r /\
            status_of r = Some (JStr "completed").
Proof.
  intros Hr. rewrite wait_for_completion_unfold in Hr.
  destruct (poll_loop E fuel settlement_id _ _ (tick s)) as [o s1] eqn:Hl.
  simpl in Hr; subst o.
  destruct (poll_loop_return_answers E _ _ _ _ _ _ _ Hl) as (k & Hlt & Hk).
  exists k. split; [|split].
  - exact Hlt.
  - exact Hk.
  - exact (poll_loop_returns_completed E _ _ _ _ _ _ _ Hl).
Qed.

End ReturnedRecord.

(** ** The further statements at concrete inputs *)

Lemma wait_for_completion_ends_once_deadline_passes_witness :
  fst (wait_for_completion env_offline 3 "stl_1" (Some 4%Z)
         (init_state demo_client)) <> OutOfFuel /\
  exchanges (snd (wait_for_completion env_offline 3 "stl_1" (Some 4%Z)
                    (init_state demo_client))) <= 2.
Proof.
  apply (wait_for_completion_ends_once_deadline_passes env_offline "stl_1"
           (Some 4%Z) (init_state demo_client) 2 3).
  - intros H. vm_compute in H. discriminate H.
  - lia.
Defined.

Lemma wait_for_completion_poll_error_witness :
  fst (wait_for_completion env_pending_then_404 5 "stl_1" None
         (init_state demo_client)) = Raise (HTTPError not_found).
Proof.
  refine (proj1 (wait_for_completion_poll_error env_pending_then_404 "stl_1"
                   None (init_state demo_client) 1 5 (HTTPError not_found)
                   _ _ _ _)).
  - intros i Hi. destruct i as [|[|i]]; [reflexivity | reflexivity | lia].
  - intros i Hi. destruct i as [|i]; [| lia].
    answered_by (record_with_status "pending").
  - reflexivity.
  - lia.
Defined.

Lemma wait_for_completion_missing_status_witness :
  fst (wait_for_completion env_pending_then_no_status 5 "stl_1" None
         (init_state demo_client)) = Raise (KeyError "status").
Proof.
  refine (proj1 (wait_for_completion_missing_status env_pending_then_no_status
                   "stl_1" None (init_state demo_client) 1 5
                   (JObj {["id" := JStr "stl_1"]}) _ _ _ _ _)).
  - intros i Hi. destruct i as [|[|i]]; [reflexivity | reflexivity | lia].
  - intros i Hi. destruct i as [|i]; [| lia].
    answered_by (record_with_status "pending").
  - eexists; split; [reflexivity | split; reflexivity].
  - reflexivity.
  - lia.
Defined.

Lemma operations_transport_failure_witness :
  fails_with ConnectionError (settle env_offline "tok_1" (Some "key_1"))
    (init_state demo_client).
Proof.
  assert (H := operations_transport_failure env_offline
                 (init_state demo_client)).
  destruct H as (_ & _ & H & _); [reflexivity|].
  exact (H "tok_1" (Some "key_1")).
Defined.

Lemma operations_undecodable_body_witness :
  fails_with JSONDecodeError (get_quote env_not_json "pix" 100 "USD")
    (init_state demo_client).
Proof.
  assert (H := operations_undecodable_body env_not_json
                 (init_state demo_client) not_json).
  destruct H as (H & _); [reflexivity | reflexivity | reflexivity |].
  exact (H "pix" 100%Q "USD").
Defined.

Lemma requests_carry_client_headers_witness :
  sends_only (from_client "pk_test" None) (init_state demo_client)
    (snd (wait_for_completion env_completes 5 "stl_1" None
            (init_state demo_client))).
Proof.
  assert (H := requests_carry_client_headers env_completes "pk_test" None
                 (init_state demo_client)).
  destruct H as (_ & _ & _ & _ & H); [reflexivity|].
  exact (H 5 "stl_1" None).
Defined.

Lemma main_stops_at_failed_quote_witness :
  fst (main env_not_found TypeError 5 ∅) = Raise (HTTPError not_found) /\
  trace (st (snd (main env_not_found TypeError 5 ∅))) =
    [EvHttp (quote_request (main_client ∅))].
Proof.
  assert (H := main_stops_at_failed_quote env_not_found TypeError 5 ∅
                 (HTTPError not_found)).
  destruct H as (H1 & H2 & _); [reflexivity|].
  split; [exact H1 | exact H2].
Defined.




Lemma main_announces_only_completed_witness :
  exists k c,
    answers env_script (3 + k) c /\ status_of c = Some (JStr "completed").
Proof.
  apply (main_announces_only_completed env_script TypeError 5 ∅).
  vm_compute.
  repeat first [apply list_elem_of_here | apply list_elem_of_further].
Defined.

Lemma wait_for_completion_returns_a_poll_answer_witness :
  exists k, k < 5 /\
    answers env_completes (0 + k) (record_with_status "completed") /\
    status_of (record_with_status "completed") = Some (JStr "completed").
Proof.
  apply (wait_for_completion_returns_a_poll_answer env_completes 5 "stl_1"
           None (init_state demo_client) (record_with_status "completed")).
  reflexivity.
Defined.
